(** * python-training: the earth-relative wind transform and the notebook pipelines

    A shallow embedding of the notebooks' Python code.

    - [earth_relative_wind_components] (500hPa_Vorticity_Advection.ipynb) is
      embedded over a store of xarray [DataArray] objects: Python names are
      references into the store, [copy] allocates, the [values] setter
      updates in place.
    - The third-party routines the notebooks call (cartopy, MetPy, siphon,
      python-awips, xarray's readers) are not part of the repository.  They
      are the fields of the class [Libraries] or, for the notebook cells, an
      oracle answering each call; every result below holds for all of them
      unless a hypothesis says otherwise. *)

From stdpp Require Import gmap strings list pretty.

Open Scope string_scope.
Open Scope list_scope.

(** ** Python exceptions and the interpreter monad *)

Inductive exn : Type :=
| ValueError (msg : string)
| AttributeError (msg : string)
| TypeError (msg : string)
| IndexError (msg : string)
| KeyError (msg : string)
| OtherError (cls msg : string).

(** A computation over a state [S]: it ends with a value or with a raised
    exception, and in both cases with the state reached so far. *)
Definition M (S A : Type) : Type := S → (exn + A) * S.

Definition ret {S A} (a : A) : M S A := λ s, (inr a, s).

Definition raise {S A} (e : exn) : M S A := λ s, (inl e, s).

Definition bind {S A B} (m : M S A) (k : A → M S B) : M S B :=
  λ s, match m s with
       | (inr a, s') => k a s'
       | (inl e, s') => (inl e, s')
       end.

(** A library call that answers without touching the state. *)
Definition lift {S A} (r : exn + A) : M S A := λ s, (r, s).

Definition gets {S A} (f : S → A) : M S A := λ s, (inr (f s), s).

Definition modify {S} (f : S → S) : M S unit := λ s, (inr tt, f s).

Notation "x <- m ;; k" := (bind m (λ x, k))
  (at level 20, m at level 99, k at level 200, only parsing).
Notation "' p <- m ;; k" := (bind m (λ x, match x with p => k end))
  (at level 20, p pattern, m at level 99, k at level 200, only parsing).

(** ** numpy: two-dimensional arrays *)

(** A C-contiguous 2-D array: its [shape] (rows, columns) and its buffer in
    row-major order. *)
Record ndarray (A : Type) : Type := NdArray {
  shape : nat * nat;
  data : list A
}.
Arguments NdArray {A} _ _.
Arguments shape {A} _.
Arguments data {A} _.

(** numpy keeps [len(buffer) = rows * columns]. *)
Definition wf_ndarray {A} (a : ndarray A) : Prop :=
  length (data a) = (shape a).1 * (shape a).2.

(** [a[i, j]]. *)
Definition item {A} (a : ndarray A) (i j : nat) : option A :=
  if decide (i < (shape a).1 ∧ j < (shape a).2)
  then data a !! (i * (shape a).2 + j)
  else None.

(** [np.meshgrid(x, y)] with the default [indexing='xy']: two arrays of
    shape [(len(y), len(x))] with [xx[i, j] = x[j]] and [yy[i, j] = y[i]]. *)
Definition meshgrid {A} (x y : list A) : ndarray A * ndarray A :=
  (NdArray (length y, length x) (mjoin (replicate (length y) x)),
   NdArray (length y, length x) (mjoin ((λ yi, replicate (length x) yi) <$> y))).

(** [l[::k]] for a step [k ≥ 1]: every [k]-th element, the first
    included.  [every_from k s l] skips [s] elements before it takes one. *)
Fixpoint every_from {A} (k s : nat) (l : list A) : list A :=
  match l with
  | [] => []
  | a :: l' =>
      match s with
      | 0 => a :: every_from k (k - 1) l'
      | S s' => every_from k s' l'
      end
  end.

Definition strided {A} (k : nat) (l : list A) : list A := every_from k 0 l.

(** The rows of a two-dimensional array, whose buffer is row-major. *)
Definition rows {A} (a : ndarray A) : list (list A) :=
  reshape (replicate (shape a).1 (shape a).2) (data a).

(** [a[::kr, ::kc]]: every [kr]-th row and, of these, every [kc]-th
    column; a slice of [n] elements with step [k] has [ceil(n / k)]. *)
Definition strided2 {A} (kr kc : nat) (a : ndarray A) : ndarray A :=
  NdArray (((shape a).1 + (kr - 1)) / kr, ((shape a).2 + (kc - 1)) / kc)
          (mjoin (strided kc <$> strided kr (rows a))).

(** The wind barbs of the vorticity notebook:
    [wind_slice = (slice(None, None, 20), slice(None, None, 20))], the
    node coordinates [np.meshgrid(x[wind_slice[0]], y[wind_slice[0]])]
    and the components [u[wind_slice]], [v[wind_slice]], as they are
    handed to [ax.barbs]. *)
Definition wind_slice : nat * nat := (20, 20).

Definition barb_grid {A B} (x y : list A) (u v : ndarray B)
  : ndarray A * ndarray A * ndarray B * ndarray B :=
  let '(xx, yy) := meshgrid (strided wind_slice.1 x) (strided wind_slice.1 y) in
  (xx, yy, strided2 wind_slice.1 wind_slice.2 u, strided2 wind_slice.1 wind_slice.2 v).

(** An elementwise vector routine: it refuses arrays of different shapes
    and otherwise applies [k] at every node [(x, y, u, v)].  This is the
    contract cartopy documents for [transform_vectors]; it is a hypothesis
    of the results that need it, never part of the embedded code. *)
Definition elementwise {A} (k : A → A → A → A → A * A) (x y u v : ndarray A)
  : exn + (ndarray A * ndarray A) :=
  if decide (shape x = shape y ∧ shape y = shape u ∧ shape u = shape v)
  then
    let r := zip_with (λ xy uv, k xy.1 xy.2 uv.1 uv.2)
               (zip (data x) (data y)) (zip (data u) (data v)) in
    inr (NdArray (shape x) (fst <$> r), NdArray (shape x) (snd <$> r))
  else inl (ValueError "x, y, u and v arrays must be the same shape").

(** ** The third-party numeric libraries *)

Class Libraries : Type := {
  (** the element type of the grids (numpy floats) *)
  Scalar : Type;
  (** the element that stands for the integer [n]: the entries of the
      range index xarray gives a dimension without a coordinate variable *)
  index_scalar : nat → Scalar;
  (** cartopy coordinate reference systems *)
  CRS : Type;
  (** MetPy's [CFProjection], the object [parse_cf()] stores under the
      coordinate ['metpy_crs'] *)
  CFProjection : Type;
  (** [ccrs.PlateCarree()] *)
  PlateCarree : CRS;
  (** [CFProjection.to_cartopy()] *)
  to_cartopy : CFProjection → exn + CRS;
  (** the element of an object array that holds a projection: the value
      of a scalar coordinate such as ['metpy_crs'] *)
  object_scalar : CFProjection → Scalar;
  (** [target.transform_vectors(src_crs, x, y, u, v)] *)
  transform_vectors :
    CRS → CRS → ndarray Scalar → ndarray Scalar → ndarray Scalar → ndarray Scalar →
    exn + (ndarray Scalar * ndarray Scalar)
}.

(** ** xarray: DataArray objects in a store *)

Section Xarray.
Context `{Libraries}.

(** A coordinate variable: a one-dimensional axis, or the scalar object
    coordinate that carries the grid's projection. *)
Inductive Coord : Type :=
| Axis (vals : list Scalar)
| CrsCoord (p : CFProjection).

Record DataArray : Type := mkDataArray {
  da_values : ndarray Scalar;
  da_dims : list string;
  da_coords : gmap string Coord;
  da_attrs : gmap string string;
  da_name : option string
}.

(** The library routines a call went through, in order. *)
Inductive LibCall : Type :=
| CallCartopyCrs
| CallMeshgrid
| CallPlateCarree
| CallTransformVectors
| CallCopy
| CallSetValues.

Record World : Type := mkWorld {
  heap : gmap positive DataArray;
  calls : list LibCall
}.

Definition log (c : LibCall) : M World unit :=
  modify (λ w, mkWorld (heap w) (calls w ++ [c])).

(** Reading the object a name is bound to.  A Python name always refers to
    a live object; the error branch only makes the model total. *)
Definition deref (l : positive) : M World DataArray :=
  λ w, match heap w !! l with
       | Some d => (inr d, w)
       | None => (inl (OtherError "ReferenceError" "dangling reference"), w)
       end.

Definition with_values (d : DataArray) (a : ndarray Scalar) : DataArray :=
  mkDataArray a (da_dims d) (da_coords d) (da_attrs d) (da_name d).

(** [d.copy()]: a new object with the same data, coordinates, attributes
    and name (a deep copy, xarray's default). *)
Definition copy (l : positive) : M World positive :=
  d <- deref l ;;
  _ <- log CallCopy ;;
  λ w, let l' := fresh (dom (heap w)) in
       (inr l', mkWorld (<[l' := d]> (heap w)) (calls w)).

(** [d.values = a]: xarray rebinds the variable's data and refuses a
    replacement of another shape. *)
Definition set_values (l : positive) (a : ndarray Scalar) : M World unit :=
  d <- deref l ;;
  _ <- log CallSetValues ;;
  if decide (shape a = shape (da_values d))
  then modify (λ w, mkWorld (<[l := with_values d a]> (heap w)) (calls w))
  else raise (ValueError "replacement data must match the Variable's shape").

(** [d.metpy.cartopy_crs], that is [d.metpy.crs.to_cartopy()] where
    [crs] is [d.coords['metpy_crs'].item()]. *)
Definition cartopy_crs (d : DataArray) : M World CRS :=
  match da_coords d !! "metpy_crs" with
  | Some (CrsCoord p) => _ <- log CallCartopyCrs ;; lift (to_cartopy p)
  | Some (Axis vals) =>
      if decide (length vals = 1)
      then raise (AttributeError "'float' object has no attribute 'to_cartopy'")
      else raise (ValueError "can only convert an array of size 1 to a Python scalar")
  | None => raise (AttributeError "crs attribute is not available.")
  end.

(** The length of the dimension [name], if the array has it:
    [dict(zip(d.dims, d.shape))[name]], where of two entries for one
    name the later one counts. *)
Definition dim_size (d : DataArray) (name : string) : option nat :=
  (list_to_map
     (reverse (zip (da_dims d)
                   [(shape (da_values d)).1; (shape (da_values d)).2]))
   : gmap string nat) !! name.

(** [d.x.values] and [d.y.values].  Attribute access on a DataArray looks
    the name up among the coordinates, then among the dimensions, then
    among the attributes.  A coordinate variable answers its values (a
    scalar coordinate a 0-d array, which [meshgrid] takes as one
    element); a dimension without a coordinate variable answers its range
    index [0 .. n-1]; an attribute is a string and has no [values]. *)
Definition coord_values (d : DataArray) (name : string) : exn + list Scalar :=
  match da_coords d !! name with
  | Some (Axis vals) => inr vals
  | Some (CrsCoord p) => inr [object_scalar p]
  | None =>
      match dim_size d name with
      | Some n => inr (index_scalar <$> seq 0 n)
      | None =>
          match da_attrs d !! name with
          | Some _ => inl (AttributeError "'str' object has no attribute 'values'")
          | None => inl (AttributeError
                           ("'DataArray' object has no attribute '" +:+ name +:+ "'"))
          end
      end
  end.

(** *** The function of the notebook *)

Definition no_crs_message : string :=
  "No CRS in coordinate, be sure to usethe MetPy accessor parse_cf()".

Definition earth_relative_wind_components (ugrd vgrd : positive)
  : M World (positive * positive) :=
  u <- deref ugrd ;;
  if decide ("metpy_crs" ∉ dom (da_coords u))
  then raise (ValueError no_crs_message)
  else
    data_crs <- cartopy_crs u ;;
    x <- lift (coord_values u "x") ;;
    y <- lift (coord_values u "y") ;;
    _ <- log CallMeshgrid ;;
    '(xx, yy) <- ret (meshgrid x y) ;;
    _ <- log CallPlateCarree ;;
    v <- deref vgrd ;;
    _ <- log CallTransformVectors ;;
    '(ut, vt) <- lift (transform_vectors PlateCarree data_crs xx yy
                        (da_values u) (da_values v)) ;;
    uer <- copy ugrd ;;
    ver <- copy vgrd ;;
    _ <- set_values uer ut ;;
    _ <- set_values ver vt ;;
    ret (uer, ver).

End Xarray.

(** [transform_vectors] is elementwise with kernel [k]. *)
Definition pointwise_transform `{Libraries}
    (k : CRS → CRS → Scalar → Scalar → Scalar → Scalar → Scalar * Scalar) : Prop :=
  ∀ tgt src x y u v, transform_vectors tgt src x y u v = elementwise (k tgt src) x y u v.

(** ** A concrete instance

    Integer grids and two reference systems: [true] is the plate carree
    system, [false] a grid turned by a quarter turn against it. *)

Definition quarter_turn (tgt src : bool) (x y u v : Z) : Z * Z :=
  if decide (tgt = src) then (u, v) else ((- v)%Z, u).

Definition example_libraries : Libraries := {|
  Scalar := Z;
  CRS := bool;
  CFProjection := bool;
  index_scalar := Z.of_nat;
  PlateCarree := true;
  to_cartopy p := inr p;
  object_scalar p := if p then 1%Z else 0%Z;
  transform_vectors tgt src := elementwise (quarter_turn tgt src)
|}.

Section Examples.
#[local] Existing Instance example_libraries.

Definition example_ugrd : DataArray :=
  mkDataArray (NdArray (2, 3) [1; 2; 3; 4; 5; 6]%Z) ["y"; "x"]
    {[ "x" := Axis [10; 20; 30]%Z; "y" := Axis [100; 200]%Z;
       "metpy_crs" := CrsCoord false ]}
    {[ "units" := "m/s" ]} (Some "u-component_of_wind_isobaric").

Definition example_vgrd : DataArray :=
  mkDataArray (NdArray (2, 3) [7; 8; 9; 10; 11; 12]%Z) ["y"; "x"]
    {[ "x" := Axis [10; 20; 30]%Z; "y" := Axis [100; 200]%Z;
       "metpy_crs" := CrsCoord false ]}
    {[ "units" := "m/s" ]} (Some "v-component_of_wind_isobaric").

(** The same grids before [parse_cf()]: no ['metpy_crs'] coordinate. *)
Definition example_ugrd_no_crs : DataArray :=
  mkDataArray (da_values example_ugrd) (da_dims example_ugrd)
    (delete "metpy_crs" (da_coords example_ugrd))
    (da_attrs example_ugrd) (da_name example_ugrd).

Definition example_vgrd_no_crs : DataArray :=
  mkDataArray (da_values example_vgrd) (da_dims example_vgrd)
    (delete "metpy_crs" (da_coords example_vgrd))
    (da_attrs example_vgrd) (da_name example_vgrd).

(** A v-grid stored transposed, and a u-grid on latitude and longitude. *)
Definition example_vgrd_transposed : DataArray :=
  mkDataArray (NdArray (3, 2) [7; 10; 8; 11; 9; 12]%Z) ["x"; "y"]
    (da_coords example_vgrd) (da_attrs example_vgrd) (da_name example_vgrd).

Definition example_ugrd_latlon : DataArray :=
  mkDataArray (da_values example_ugrd) ["lat"; "lon"]
    {[ "lon" := Axis [10; 20; 30]%Z; "lat" := Axis [100; 200]%Z;
       "metpy_crs" := CrsCoord true ]}
    (da_attrs example_ugrd) (da_name example_ugrd).


Definition example_world (u v : DataArray) : World :=
  mkWorld {[ 1%positive := u; 2%positive := v ]} [].

(** Another session: the same two grids under other names, among other
    objects, after other library calls. *)
Definition example_world_other : World :=
  mkWorld {[ 7%positive := example_ugrd; 5%positive := example_vgrd;
             3%positive := example_vgrd_no_crs ]} [CallMeshgrid].

Definition example_result : (exn + positive * positive) * World :=
  earth_relative_wind_components 1 2 (example_world example_ugrd example_vgrd).

End Examples.

(** ** Notebook cells: programs over library calls

    The notebooks are straight-line scripts over third-party objects.  A
    cell is embedded as a program that issues library calls; what a call
    answers is left to an oracle, which sees the whole transcript so far
    (remote servers and library objects have state). *)

Section Script.
Context {Obj : Type}.

(** Python values: opaque library objects and the built-in values the
    cells write down or take apart. *)
#[local] Set Warnings "-register-all".
Inductive Value : Type :=
| VObj (o : Obj)
| VNone
| VBool (b : bool)
| VInt (z : Z)
| VFloat (m e : Z)          (* the literal [m]e[e], as in [1e6] *)
| VStr (s : string)
| VList (l : list Value).

(** One call: a function or method name (a method takes its object as
    first argument), positional and keyword arguments. *)
Record Call : Type := mkCall {
  fn : string;
  args : list Value;
  kwargs : list (string * Value)
}.

(** A transcript entry: the call and what it answered or raised. *)
Definition Event : Type := Call * (exn + Value).

Definition Oracle : Type := list Event → Call → exn + Value.

Inductive Prog (A : Type) : Type :=
| Ret (a : A)
| Raise (e : exn)
| Do (c : Call) (k : Value → Prog A).
Arguments Ret {A} _.
Arguments Raise {A} _.
Arguments Do {A} _ _.

Fixpoint pbind {A B} (p : Prog A) (f : A → Prog B) : Prog B :=
  match p with
  | Ret a => f a
  | Raise e => Raise e
  | Do c k => Do c (λ v, pbind (k v) f)
  end.

(** Running a program: each call is put to the oracle and logged with its
    answer; an exception ends the run there. *)
Fixpoint run (oracle : Oracle) {A} (p : Prog A) (tr : list Event)
  : (exn + A) * list Event :=
  match p with
  | Ret a => (inr a, tr)
  | Raise e => (inl e, tr)
  | Do c k =>
      match oracle tr c with
      | inl e => (inl e, tr ++ [(c, inl e)])
      | inr v => run oracle (k v) (tr ++ [(c, inr v)])
      end
  end.

Definition call (f : string) (a : list Value) : Prog Value :=
  Do (mkCall f a []) Ret.

Definition call_kw (f : string) (a : list Value) (kw : list (string * Value))
  : Prog Value :=
  Do (mkCall f a kw) Ret.

(** [o.name] *)
Definition getattr (o : Value) (name : string) : Prog Value :=
  call "getattr" [o; VStr name].

(** [o[key]]: indexing a Python list with an integer is the built-in;
    anything else is the object's own [__getitem__]. *)
Definition getitem (o key : Value) : Prog Value :=
  match key, o with
  | VInt z, VList l =>
      let n := Z.of_nat (length l) in
      let i := if decide (z < 0)%Z then (z + n)%Z else z in
      if decide (0 ≤ i < n)%Z
      then match l !! Z.to_nat i with
           | Some v => Ret v
           | None => Raise (IndexError "list index out of range")
           end
      else Raise (IndexError "list index out of range")
  | _, _ => call "getitem" [o; key]
  end.

(** [f'{v:spec}']: the object's [__format__], which must answer a string. *)
Definition format (v : Value) (spec : string) : Prog string :=
  pbind (call "format" [v; VStr spec]) (λ r,
    match r with
    | VStr s => Ret s
    | _ => Raise (TypeError "__format__ must return a str")
    end).

(** [for x in o: body(x)], collecting what the bodies return: a Python
    list is walked in place; any other object is asked for its items. *)
Fixpoint for_each {A} (l : list Value) (body : Value → Prog A) : Prog (list A) :=
  match l with
  | [] => Ret []
  | x :: l' => pbind (body x) (λ a, pbind (for_each l' body) (λ r, Ret (a :: r)))
  end.

Definition for_in {A} (o : Value) (body : Value → Prog A) : Prog (list A) :=
  match o with
  | VList l => for_each l body
  | _ => pbind (call "iter" [o]) (λ items,
           match items with
           | VList l => for_each l body
           | _ => Raise (TypeError "iter() returned non-iterator")
           end)
  end.

(** [a, b = o]: a Python list or tuple is taken apart in place, any other
    object is asked for its items; there must be two of them. *)
Definition unpack2 (o : Value) : Prog (Value * Value) :=
  pbind (match o with
         | VList l => Ret l
         | _ => pbind (call "iter" [o]) (λ items,
                  match items with
                  | VList l => Ret l
                  | _ => Raise (TypeError "iter() returned non-iterator")
                  end)
         end)
    (λ l, match l with
          | [a; b] => Ret (a, b)
          | _ :: _ :: _ :: _ =>
              Raise (ValueError "too many values to unpack (expected 2)")
          | _ =>
              Raise (ValueError ("not enough values to unpack (expected 2, got "
                                 +:+ pretty (length l) +:+ ")"))
          end).

End Script.

Arguments Value : clear implicits.
Arguments Call : clear implicits.
Arguments Event : clear implicits.
Arguments Oracle : clear implicits.
Arguments Prog : clear implicits.
Arguments Ret {Obj A} _.
Arguments Raise {Obj A} _.
Arguments Do {Obj A} _ _.

#[global] Instance Prog_ret {Obj} : MRet (Prog Obj) := λ A, Ret.
#[global] Instance Prog_bind {Obj} : MBind (Prog Obj) := λ A B f p, pbind p f.

(** How often the function [f] was called in a transcript. *)
Definition count_calls {Obj} (f : string) (tr : list (Event Obj)) : nat :=
  length (filter (λ ev, fn ev.1 = f) tr).

(** A run propagates library failures uncaught: the transcript only
    grows, every entry is what the oracle answered at that point, and a
    call that raised is the last thing that happened, its exception being
    the outcome of the run as it is. *)
Definition propagates_uncaught {Obj A} (oracle : Oracle Obj) (p : Prog Obj A) : Prop :=
  ∀ tr, ∃ cs,
    (run oracle p tr).2 = tr ++ cs ∧
    (∀ pre c r post, cs = pre ++ (c, r) :: post → oracle (tr ++ pre) c = r) ∧
    (∀ pre c e post, cs = pre ++ (c, inl e) :: post →
       post = [] ∧ (run oracle p tr).1 = inl e).

(** [interpolate_to_isosurface(level_var, interp_var, 2,
    bottom_up_search=False)]: the field [interp_var] where [level_var]
    crosses 2, searched from the top down. *)
Definition isosurface_at_2 {Obj} (level_var interp_var : Value Obj) : Call Obj :=
  mkCall "interpolate_to_isosurface" [level_var; interp_var; VInt 2]
    [("bottom_up_search", VBool false)].

(** A program that calls [f] at most [n] times, whatever it is answered. *)
Definition calls_at_most {Obj A} (f : string) (n : nat) (p : Prog Obj A) : Prop :=
  ∀ oracle tr, (count_calls f (run oracle p tr).2 ≤ count_calls f tr + n)%nat.

(** A program that has called [f] at least [n] times when it returns. *)
Definition calls_at_least {Obj A} (f : string) (n : nat) (p : Prog Obj A) : Prop :=
  ∀ oracle tr a tr',
    run oracle p tr = (inr a, tr') → (count_calls f tr + n ≤ count_calls f tr')%nat.

(** A cell that makes the call [f] as one request: never twice in a run,
    whatever it is answered, and once in every run that gets to its end. *)
Definition fetched_once {Obj A} (f : string) (p : Prog Obj A) : Prop :=
  calls_at_most f 1 p ∧
  ∀ oracle a tr, run oracle p [] = (inr a, tr) → count_calls f tr = 1.

(** *** The GLM notebook: request and fetch (cells 2 and 3) *)

Section Notebooks.
Context {Obj : Type}.
#[local] Abbreviation Value := (Value Obj).

Definition edexServer : string := "edex-cloud.unidata.ucar.edu".
Definition datatype : string := "binlightning".

Record GlmVars : Type := mkGlmVars {
  glm_request : Value;
  glm_sources : Value;
  glm_availableParms : Value;
  glm_times : Value;
  glm_response : Value;
  glm_points : list Value;
  glm_ob : Value
}.

Definition glm_cells : Prog Obj GlmVars :=
  _ ← call "DataAccessLayer.changeEDEXHost" [VStr edexServer];
  request ← call "DataAccessLayer.newDataRequest" [VStr datatype];
  sources ← call "DataAccessLayer.getIdentifierValues" [request; VStr "source"];
  _ ← call "print" [VStr "available sources:"];
  sources_list ← call "list" [sources];
  _ ← call "print" [sources_list];
  _ ← call "print" [VStr EmptyString];
  availableParms ← call "DataAccessLayer.getAvailableParameters" [request];
  _ ← call ".sort" [availableParms];
  _ ← call "print" [VStr "available parameters:"];
  parms_list ← call "list" [availableParms];
  _ ← call "print" [parms_list];
  _ ← call ".addIdentifier" [request; VStr "source"; VStr "GLMgr"];
  _ ← call ".setParameters" [request; VStr "intensity"];
  times ← call "DataAccessLayer.getAvailableTimes" [request];
  latest ← getitem times (VInt (-1));
  response ← call "DataAccessLayer.getGeometryData" [request; VList [latest]];
  points ← for_in response (λ data, call ".getGeometry" [data]);
  ob ← getitem response (VInt 0);
  mret (mkGlmVars request sources availableParms times response points ob).

(** *** The vorticity notebook: the data cell *)

Definition base_url : string :=
  "https://www.ncei.noaa.gov/thredds/catalog/model-namanl-old/".

Record VorticityVars : Type := mkVorticityVars {
  vor_dt : Value;
  vor_cat : Value;
  vor_ncss : Value;
  vor_query : Value;
  vor_data : Value;
  vor_ds_data : Value;
  vor_ds : Value;
  vor_times : Value;
  vor_vtime : Value;
  vor_lev_500 : Value;
  vor_hght_500 : Value;
  vor_uwnd_500 : Value;
  vor_vwnd_500 : Value;
  vor_uwnd_500er : Value;
  vor_vwnd_500er : Value
}.

(** The whole cell, from [dt = datetime(...)] to the call of
    [earth_relative_wind_components]; [units] is MetPy's unit registry.
    In a cell the grids are objects of the libraries, so the call of the
    function embedded above is one more call that answers or raises. *)
Definition vorticity_data_cell (units : Value) : Prog Obj VorticityVars :=
  dt ← call "datetime" [VInt 2016; VInt 4; VInt 16; VInt 18];
  ym ← format dt "%Y%m";
  ymd ← format dt "%Y%m%d";
  cat ← call "TDSCatalog" [VStr (base_url +:+ ym +:+ "/" +:+ ymd +:+ "/catalog.xml")];
  datasets ← getattr cat "datasets";
  ymd' ← format dt "%Y%m%d";
  hh ← format dt "%H";
  dataset ← getitem datasets
              (VStr ("namanl_218_" +:+ ymd' +:+ "_" +:+ hh +:+ "00_000.grb"));
  ncss ← call ".subset" [dataset];
  query ← call ".query" [ncss];
  _ ← call ".time" [query; dt];
  _ ← call ".accept" [query; VStr "netcdf"];
  _ ← call ".variables" [query; VStr "Geopotential_height_isobaric";
                         VStr "u-component_of_wind_isobaric";
                         VStr "v-component_of_wind_isobaric"];
  data ← call ".get_data" [ncss; query];
  store ← call "NetCDF4DataStore" [data];
  opened ← call "xr.open_dataset" [store];
  accessor ← getattr opened "metpy";
  ds_data ← call ".parse_cf" [accessor];
  accessor' ← getattr ds_data "metpy";
  ds ← call ".assign_latitude_longitude" [accessor'];
  hght ← getattr ds "Geopotential_height_isobaric";
  hght_acc ← getattr hght "metpy";
  times ← getattr hght_acc "time";
  time_values ← getattr times "values";
  time_sq ← call ".squeeze" [time_values];
  time_ms ← call ".astype" [time_sq; VStr "datetime64[ms]"];
  vtime ← call ".astype" [time_ms; VStr "O"];
  hPa ← getattr units "hPa";
  lev_500 ← call "*" [VInt 500; hPa];
  hght' ← getattr ds "Geopotential_height_isobaric";
  hght_acc' ← getattr hght' "metpy";
  hght_sel ← call_kw ".sel" [hght_acc'] [("vertical", lev_500)];
  hght_sq ← call ".squeeze" [hght_sel];
  hght_500 ← call "mpcalc.smooth_gaussian" [hght_sq; VInt 4];
  u0 ← getitem ds (VStr "u-component_of_wind_isobaric");
  u_acc ← getattr u0 "metpy";
  u_sel ← call_kw ".sel" [u_acc] [("vertical", lev_500)];
  uwnd_500 ← call ".squeeze" [u_sel];
  v0 ← getitem ds (VStr "v-component_of_wind_isobaric");
  v_acc ← getattr v0 "metpy";
  v_sel ← call_kw ".sel" [v_acc] [("vertical", lev_500)];
  vwnd_500 ← call ".squeeze" [v_sel];
  pair ← call "earth_relative_wind_components" [uwnd_500; vwnd_500];
  er ← unpack2 pair;
  mret (mkVorticityVars dt cat ncss query data ds_data ds times vtime lev_500
          hght_500 uwnd_500 vwnd_500 er.1 er.2).

(** *** The dynamic-tropopause notebook *)

Record TropopauseData : Type := mkTropopauseData {
  dt_date : Value;
  dt_ds : Value;
  dt_vtime : Value
}.

Definition tropopause_data_cell : Prog Obj TropopauseData :=
  now ← call "datetime.utcnow" [];
  delta ← call_kw "timedelta" [] [("days", VInt 1)];
  date ← call "-" [now; delta];
  ymd ← format date "%Y%m%d";
  opened ← call "xr.open_dataset"
             [VStr ("https://thredds.ucar.edu/thredds/dodsC/grib/NCEP/GFS/"
                    +:+ "Global_onedeg_ana/GFS_Global_onedeg_ana_" +:+ ymd
                    +:+ "_1200.grib2")];
  accessor ← getattr opened "metpy";
  ds ← call ".parse_cf" [accessor];
  lat ← call "slice" [VInt 80; VInt (-10)];
  lon ← call "slice" [VInt (360 - 140); VInt (360 - 40)];
  ds ← call_kw ".sel" [ds] [("lat", lat); ("lon", lon)];
  time ← getattr ds "time";
  values ← getattr time "values";
  t0 ← getitem values (VInt 0);
  t_ms ← call ".astype" [t0; VStr "datetime64[ms]"];
  vtime ← call ".astype" [t_ms; VStr "O"];
  mret (mkTropopauseData date ds vtime).

Record TropopauseVars : Type := mkTropopauseVars {
  pressure : Value;
  uwind : Value;
  vwind : Value;
  LL_avor : Value;
  avg_LL_avor : Value;
  potemp : Value;
  avg_LL_rvor : Value;
  pvor : Value;
  DT_potemp : Value;
  DT_uwnd : Value;
  DT_vwnd : Value
}.

(** The cell "Compute Potential Temperature at 2 PVU"; [units] is MetPy's
    unit registry and [ds] the dataset of the cell before. *)
Definition tropopause_compute_cell (units ds : Value) : Prog Obj TropopauseVars :=
  pressure ← getattr ds "isobaric";
  u0 ← getitem ds (VStr "u-component_of_wind_isobaric");
  u1 ← call ".squeeze" [u0];
  uwind ← call "mpcalc.smooth_n_point" [u1; VInt 9; VInt 2];
  v0 ← getitem ds (VStr "v-component_of_wind_isobaric");
  v1 ← call ".squeeze" [v0];
  vwind ← call "mpcalc.smooth_n_point" [v1; VInt 9; VInt 2];
  avor ← getattr ds "Absolute_vorticity_isobaric";
  avor_acc ← getattr avor "metpy";
  hPa ← getattr units "hPa";
  p850 ← call "*" [VInt 850; hPa];
  hPa' ← getattr units "hPa";
  p925 ← call "*" [VInt 925; hPa'];
  layer ← call "slice" [p850; p925];
  avor_ll ← call_kw ".sel" [avor_acc] [("vertical", layer)];
  avor_sq ← call ".squeeze" [avor_ll];
  LL_avor ← call "mpcalc.smooth_n_point" [avor_sq; VInt 9; VInt 2];
  avg_LL_avor ← call_kw ".mean" [LL_avor] [("axis", VInt 0)];
  temp ← getattr ds "Temperature_isobaric";
  temp_sq ← call ".squeeze" [temp];
  theta ← call "mpcalc.potential_temperature" [pressure; temp_sq];
  potemp ← call "mpcalc.smooth_n_point" [theta; VInt 9; VInt 2];
  lat ← getattr ds "lat";
  f ← call "mpcalc.coriolis_parameter" [lat];
  avg_LL_rvor ← call "-" [avg_LL_avor; f];
  pvor ← call "mpcalc.potential_vorticity_baroclinic" [potemp; pressure; uwind; vwind];
  pv ← getattr pvor "values";
  pv6 ← call "*" [pv; VFloat 1 6];
  theta_vals ← getattr potemp "values";
  DT_potemp ← call_kw "interpolate_to_isosurface" [pv6; theta_vals; VInt 2]
                [("bottom_up_search", VBool false)];
  pv' ← getattr pvor "values";
  pv6' ← call "*" [pv'; VFloat 1 6];
  u_vals ← getattr uwind "values";
  iso_u ← call_kw "interpolate_to_isosurface" [pv6'; u_vals; VInt 2]
            [("bottom_up_search", VBool false)];
  mps ← call "__call__" [units; VStr "m/s"];
  iso_u_mps ← call "*" [iso_u; mps];
  knots ← getattr units "knots";
  DT_uwnd ← call ".to" [iso_u_mps; knots];
  pv'' ← getattr pvor "values";
  pv6'' ← call "*" [pv''; VFloat 1 6];
  v_vals ← getattr vwind "values";
  iso_v ← call_kw "interpolate_to_isosurface" [pv6''; v_vals; VInt 2]
            [("bottom_up_search", VBool false)];
  mps' ← call "__call__" [units; VStr "m/s"];
  iso_v_mps ← call "*" [iso_v; mps'];
  knots' ← getattr units "knots";
  DT_vwnd ← call ".to" [iso_v_mps; knots'];
  mret (mkTropopauseVars pressure uwind vwind LL_avor avg_LL_avor potemp
          avg_LL_rvor pvor DT_potemp DT_uwnd DT_vwnd).

End Notebooks.

(** The calls of each notebook that go to a remote server. *)
Definition glm_remote_calls : list string :=
  [ "DataAccessLayer.getIdentifierValues"; "DataAccessLayer.getAvailableParameters";
    "DataAccessLayer.getAvailableTimes"; "DataAccessLayer.getGeometryData" ].

Definition vorticity_remote_calls : list string :=
  [ "TDSCatalog"; ".subset"; ".get_data" ].

Definition tropopause_remote_calls : list string :=
  [ "xr.open_dataset" ].

(** ** Example servers and grids *)

(** A world in which every call is answered with a new opaque object. *)
Definition fresh_oracle : Oracle nat := λ tr _, inr (VObj (length tr)).

(** A THREDDS server and libraries that answer the vorticity cell: dates
    format to text and the wind function returns a pair. *)
Definition vorticity_oracle : Oracle nat := λ tr c,
  if decide (fn c = "format") then inr (VStr "2016")
  else if decide (fn c = "earth_relative_wind_components")
       then inr (VList [VObj 1; VObj 2])
       else inr (VObj (length tr)).

(** A GLM server with the given available times and records. *)
Definition glm_oracle (times response : list (Value nat)) : Oracle nat := λ tr c,
  if decide (fn c = "DataAccessLayer.getAvailableTimes") then inr (VList times)
  else if decide (fn c = "DataAccessLayer.getGeometryData") then inr (VList response)
  else inr (VObj (length tr)).

(** What the GLM cell binds against [glm_oracle] with two times and three
    records, and the tropopause cell against [fresh_oracle]. *)
Definition example_glm_vars : @GlmVars nat :=
  mkGlmVars (VObj 1) (VObj 2) (VObj 7) (VList [VObj 7; VObj 8])
            (VList [VObj 1; VObj 2; VObj 3]) [VObj 16; VObj 17; VObj 18] (VObj 1).

Definition example_tropopause_vars : @TropopauseVars nat :=
  mkTropopauseVars (VObj 0) (VObj 3) (VObj 6) (VObj 16) (VObj 17) (VObj 21)
                   (VObj 24) (VObj 25) (VObj 29) (VObj 37) (VObj 45).

Definition example_axis (n : nat) : list Z := Z.of_nat <$> seq 0 n.

Definition example_field (r c : nat) : ndarray Z :=
  NdArray (r, c) (Z.of_nat <$> seq 0 (r * c)).

(** * Theory

    ** numpy: reading the node coordinates built by [meshgrid] *)

Section NumpyTheory.
Context {A : Type}.


Lemma meshgrid_xx_lookup (x y : list A) i j :
  i < length y → j < length x →
  data (meshgrid x y).1 !! (i * length x + j) = x !! j.
Proof.
  intros Hi Hj. destruct (lookup_lt_is_Some_2 x j Hj) as [a Ha].
  rewrite Ha. simpl.
  apply (join_lookup_Some_same_length' (length x)); [|done|].
  - by apply Forall_replicate.
  - exists x. split; [by apply lookup_replicate_2 | done].
Qed.

Lemma meshgrid_yy_lookup (x y : list A) i j :
  i < length y → j < length x →
  data (meshgrid x y).2 !! (i * length x + j) = y !! i.
Proof.
  intros Hi Hj. destruct (lookup_lt_is_Some_2 y i Hi) as [a Ha].
  rewrite Ha. simpl.
  apply (join_lookup_Some_same_length' (length x)); [|done|].
  - apply Forall_fmap, Forall_forall. intros yi _. apply length_replicate.
  - exists (replicate (length x) a). split.
    + by rewrite list_lookup_fmap, Ha.
    + by apply lookup_replicate_2.
Qed.

(** [xx[i, j] = x[j]] and [yy[i, j] = y[i]]. *)
Lemma meshgrid_item (x y : list A) i j :
  i < length y → j < length x →
  item (meshgrid x y).1 i j = x !! j ∧ item (meshgrid x y).2 i j = y !! i.
Proof.
  intros Hi Hj. unfold item. rewrite !decide_True by done.
  split; [by apply meshgrid_xx_lookup | by apply meshgrid_yy_lookup].
Qed.

End NumpyTheory.

(** *** Strided slices *)

Section StridedTheory.
Context {A : Type}.

Lemma every_from_lookup k s (l : list A) i :
  0 < k → every_from k s l !! i = l !! (s + i * k).
Proof.
  intros Hk. revert s i. induction l as [|a l IH]; intros s i; [done|].
  destruct s as [|s]; simpl.
  - destruct i as [|i]; [done|]. simpl. rewrite IH.
    destruct k as [|k]; [lia|]. simpl. f_equal. lia.
  - apply IH.
Qed.

Lemma every_from_length k s (l : list A) :
  s < k → length (every_from k s l) = (length l + (k - 1 - s)) / k.
Proof.
  revert s. induction l as [|a l IH]; intros s Hs.
  - simpl. symmetry. apply Nat.div_small. lia.
  - destruct s as [|s]; simpl.
    + rewrite IH by lia.
      assert (S (length l + (k - 1 - 0)) = length l + 1 * k) as -> by lia.
      assert (k - 1 - (k - 1) = 0) as -> by lia.
      rewrite Nat.div_add by lia. rewrite Nat.add_0_r. lia.
    + rewrite IH by lia. f_equal. lia.
Qed.

(** [l[::k][i] = l[i * k]]. *)
Lemma strided_lookup k (l : list A) i :
  0 < k → strided k l !! i = l !! (i * k).
Proof. intros Hk. unfold strided. by rewrite every_from_lookup. Qed.

(** [len(l[::k]) = ceil(len(l) / k)]. *)
Lemma strided_length k (l : list A) :
  0 < k → length (strided k l) = (length l + (k - 1)) / k.
Proof.
  intros Hk. unfold strided. rewrite every_from_length by done.
  by rewrite Nat.sub_0_r.
Qed.

Lemma div_up_lt n k j : 0 < k → j < (n + (k - 1)) / k → j * k < n.
Proof.
  intros Hk Hj. pose proof (Nat.Div0.mul_div_le (n + (k - 1)) k). nia.
Qed.

End StridedTheory.

Section SliceTheory.
Context {A : Type}.

Lemma rows_item (a : ndarray A) i j :
  wf_ndarray a → i < (shape a).1 → j < (shape a).2 →
  ∃ row, rows a !! i = Some row ∧ length row = (shape a).2 ∧ row !! j = item a i j.
Proof.
  unfold wf_ndarray, rows, item. destruct a as [[r c] d]; simpl.
  intros Hwf Hi Hj.
  rewrite sublist_lookup_reshape by (done || lia).
  unfold sublist_lookup. rewrite option_guard_True by nia. simpl.
  eexists. split; [done|]. split.
  - rewrite length_take, length_drop. nia.
  - rewrite decide_True by done. rewrite lookup_take_lt by done.
    by rewrite lookup_drop.
Qed.

Lemma rows_length (a : ndarray A) :
  wf_ndarray a → 0 < (shape a).2 →
  Forall (λ row, length row = (shape a).2) (rows a).
Proof.
  intros Hwf Hc. apply Forall_lookup. intros i row Hrow.
  assert (i < (shape a).1) as Hi.
  { apply lookup_lt_Some in Hrow. unfold rows in Hrow.
    by rewrite length_reshape, length_replicate in Hrow. }
  destruct (rows_item a i 0 Hwf Hi Hc) as (row' & Hrow' & Hlen & _).
  congruence.
Qed.

(** [a[::kr, ::kc][i, j] = a[i * kr, j * kc]]. *)
Lemma strided2_item kr kc (a : ndarray A) i j :
  0 < kr → 0 < kc → wf_ndarray a →
  i < (shape (strided2 kr kc a)).1 → j < (shape (strided2 kr kc a)).2 →
  item (strided2 kr kc a) i j = item a (i * kr) (j * kc) ∧
  is_Some (item a (i * kr) (j * kc)).
Proof.
  intros Hkr Hkc Hwf Hi Hj.
  pose proof Hi as Hi'. pose proof Hj as Hj'. simpl in Hi', Hj'.
  apply div_up_lt in Hi'; [|done]. apply div_up_lt in Hj'; [|done].
  destruct (rows_item a (i * kr) (j * kc) Hwf Hi' Hj') as (row & Hrow & Hlen & Hitem).
  assert (is_Some (row !! (j * kc))) as [s Hs].
  { apply lookup_lt_is_Some. lia. }
  rewrite <- Hitem, Hs. split; [|by eexists].
  unfold item. rewrite decide_True by done.
  apply (join_lookup_Some_same_length' (((shape a).2 + (kc - 1)) / kc)); [|done|].
  - apply Forall_fmap, Forall_lookup. intros i' row' Hrow'.
    rewrite strided_lookup in Hrow' by done. simpl.
    rewrite strided_length by done.
    assert (0 < (shape a).2) as Hc by lia.
    pose proof (rows_length a Hwf Hc) as Hall.
    rewrite Forall_lookup in Hall. by rewrite (Hall _ _ Hrow').
  - exists (strided kc row). split.
    + by rewrite list_lookup_fmap, strided_lookup, Hrow.
    + by rewrite strided_lookup.
Qed.

End SliceTheory.

(** *** The wind barbs of the vorticity notebook *)

Section BarbTheory.
Context {A B : Type}.

(** X10: the barbs are drawn on the grid they belong to.  For wind
    components over the axes [x] and [y], the coordinate arrays and the
    two sliced components handed to [ax.barbs] have one shape,
    [(ceil(len(y) / 20), ceil(len(x) / 20))], and node [(i, j)] carries
    [x[20 j]], [y[20 i]] and the components at [(20 i, 20 j)]. *)
Theorem barbs_on_grid (x y : list A) (u v : ndarray B) xx yy us vs :
  wf_ndarray u → wf_ndarray v →
  shape u = (length y, length x) → shape v = (length y, length x) →
  barb_grid x y u v = (xx, yy, us, vs) →
  shape us = ((length y + 19) / 20, (length x + 19) / 20) ∧
  shape xx = shape us ∧ shape yy = shape us ∧ shape vs = shape us ∧
  ∀ i j, i < (shape us).1 → j < (shape us).2 →
    ∃ xj yi uij vij,
      x !! (j * 20) = Some xj ∧ y !! (i * 20) = Some yi ∧
      item u (i * 20) (j * 20) = Some uij ∧ item v (i * 20) (j * 20) = Some vij ∧
      item xx i j = Some xj ∧ item yy i j = Some yi ∧
      item us i j = Some uij ∧ item vs i j = Some vij.
Proof.
  intros Hwfu Hwfv Hu Hv. unfold barb_grid, wind_slice. cbn [fst snd].
  destruct (meshgrid (strided 20 x) (strided 20 y)) as [xx0 yy0] eqn:Hm.
  intros [= <- <- <- <-].
  assert (0 < 20) as Hk by lia.
  assert (shape (strided2 20 20 u) = ((length y + 19) / 20, (length x + 19) / 20))
    as Hus by (cbn [strided2 shape]; by rewrite Hu).
  assert (shape (strided2 20 20 v) = ((length y + 19) / 20, (length x + 19) / 20))
    as Hvs by (cbn [strided2 shape]; by rewrite Hv).
  assert (shape xx0 = ((length y + 19) / 20, (length x + 19) / 20)
          ∧ shape yy0 = ((length y + 19) / 20, (length x + 19) / 20))
    as [Hxx Hyy].
  { injection Hm as <- <-. cbn [shape]. by rewrite !strided_length. }
  rewrite Hus, Hvs, Hxx, Hyy. split_and!; [done..|].
  cbn [fst snd]. intros i j Hi Hj.
  destruct (strided2_item 20 20 u i j Hk Hk Hwfu) as [Hui [uij Huij]];
    [by rewrite Hus..|].
  destruct (strided2_item 20 20 v i j Hk Hk Hwfv) as [Hvi [vij Hvij]];
    [by rewrite Hvs..|].
  destruct (meshgrid_item (strided 20 x) (strided 20 y) i j) as [Hxi Hyi];
    [by rewrite strided_length..|].
  rewrite Hm in Hxi, Hyi. cbn [fst snd] in Hxi, Hyi.
  rewrite strided_lookup in Hxi, Hyi by done.
  destruct (lookup_lt_is_Some_2 x (j * 20)) as [xj Hxj];
    [by apply (div_up_lt _ 20)|].
  destruct (lookup_lt_is_Some_2 y (i * 20)) as [yi Hyi'];
    [by apply (div_up_lt _ 20)|].
  exists xj, yi, uij, vij. split_and!; congruence.
Qed.
End BarbTheory.

(** ** The earth-relative wind transform *)

Section WindTheory.
Context `{Libraries}.
Implicit Types (w : World) (d u v : DataArray) (l ugrd vgrd uer ver : positive).

Lemma fresh_lookup_None (h : gmap positive DataArray) : h !! fresh (dom h) = None.
Proof. apply not_elem_of_dom, is_fresh. Qed.

(** *** Reading an axis *)

(** A coordinate variable takes precedence over the dimension and the
    attributes. *)
Lemma coord_values_axis d name vals :
  da_coords d !! name = Some (Axis vals) → coord_values d name = inr vals.
Proof. intros Hc. unfold coord_values. by rewrite Hc. Qed.

Lemma dim_size_None d name : name ∉ da_dims d → dim_size d name = None.
Proof.
  intros Hdim. unfold dim_size.
  apply not_elem_of_list_to_map_1. rewrite fmap_reverse, elem_of_reverse.
  intros Hin. apply Hdim.
  apply list_elem_of_fmap in Hin as ([s n] & -> & Hin).
  by apply elem_of_zip_l in Hin.
Qed.

(** A name that is neither a coordinate nor a dimension cannot be read
    as an axis. *)
Lemma coord_values_missing d name :
  da_coords d !! name = None → name ∉ da_dims d →
  ∃ msg, coord_values d name = inl (AttributeError msg).
Proof.
  intros Hc Hdim. unfold coord_values.
  rewrite Hc, (dim_size_None _ _ Hdim).
  destruct (da_attrs d !! name); eauto.
Qed.

(** Reading an axis fails in one way only. *)
Lemma coord_values_error d name e :
  coord_values d name = inl e → ∃ msg, e = AttributeError msg.
Proof.
  unfold coord_values. intros He.
  repeat case_match; simplify_eq; eauto.
Qed.


(** *** Running a call *)

(** The term an expression is waiting on: the discriminee of its
    outermost pending [match]. *)
Ltac discr_of t :=
  match t with
  | match ?x with _ => _ end => discr_of x
  | match ?x with _ => _ end => constr:(x)
  | ?f _ => discr_of f
  end.

(** One step of symbolic execution of a goal [match m w with ... end]:
    reduce, then settle the pending test from the context, from the
    store lemmas, or by cases. *)
Ltac run_step :=
  cbn;
  first
    [ match goal with
      | |- ?G => let x := discr_of G in
                 match goal with Hx : x = _ |- _ => rewrite Hx end
      end
    | match goal with
      | |- ?G => let x := discr_of G in
                 lazymatch x with
                 | <[?i := ?d]> ?m !! ?j =>
                     first [ rewrite (lookup_insert_eq m i d)
                           | rewrite (lookup_insert_ne m i j d) by congruence ]
                 end
      end
    | match goal with |- ?G => let x := discr_of G in destruct x eqn:? end ].

Ltac run_unfold :=
  unfold earth_relative_wind_components, copy, set_values, cartopy_crs,
    log, modify, lift, ret, raise, deref, bind.

(** Two fresh locations allocated in a row are new and distinct. *)
Lemma fresh_twice (h : gmap positive DataArray) d :
  let f1 := fresh (dom h) in
  let f2 := fresh (dom (<[f1 := d]> h)) in
  h !! f1 = None ∧ h !! f2 = None ∧ f1 ≠ f2 ∧ f2 ≠ f1.
Proof.
  intros f1 f2.
  pose proof (fresh_lookup_None h) as Hf1.
  pose proof (fresh_lookup_None (<[f1 := d]> h)) as Hf2.
  fold f1 in Hf1. fold f2 in Hf2.
  assert (f1 ≠ f2) by (intros Heq; rewrite <- Heq in Hf2; by rewrite lookup_insert_eq in Hf2).
  rewrite lookup_insert_ne in Hf2 by done.
  done.
Qed.

(** What one call does, whatever its outcome: objects that were live
    before the call are left as they were, and so are the two inputs;
    a call that returns went through the whole body. *)
Lemma erwc_run w ugrd vgrd :
  match earth_relative_wind_components ugrd vgrd w with
  | (r, w') =>
      (∀ l, is_Some (heap w !! l) → heap w' !! l = heap w !! l) ∧
      heap w' !! ugrd = heap w !! ugrd ∧ heap w' !! vgrd = heap w !! vgrd ∧
      match r with
      | inl _ => True
      | inr (uer, ver) =>
          ∃ u v p crs x y ut vt,
            heap w !! ugrd = Some u ∧ heap w !! vgrd = Some v ∧
            da_coords u !! "metpy_crs" = Some (CrsCoord p) ∧ to_cartopy p = inr crs ∧
            coord_values u "x" = inr x ∧ coord_values u "y" = inr y ∧
            transform_vectors PlateCarree crs (meshgrid x y).1 (meshgrid x y).2
              (da_values u) (da_values v) = inr (ut, vt) ∧
            shape ut = shape (da_values u) ∧ shape vt = shape (da_values v) ∧
            heap w !! uer = None ∧ heap w !! ver = None ∧ uer ≠ ver ∧
            heap w' !! uer = Some (with_values u ut) ∧
            heap w' !! ver = Some (with_values v vt) ∧
            calls w' = calls w ++ [CallCartopyCrs; CallMeshgrid; CallPlateCarree;
                                   CallTransformVectors; CallCopy; CallCopy;
                                   CallSetValues; CallSetValues]
      end
  end.
Proof.
  destruct (heap w !! ugrd) as [du|] eqn:Hu.
  2: { run_unfold. rewrite Hu. cbn. by rewrite Hu. }
  destruct (fresh_twice (heap w) du) as (Hf1 & Hf2 & ? & ?).
  run_unfold.
  repeat run_step.
  all: cbn; split; [intros l' [dl Hl]|].
  all: repeat first [ rewrite lookup_insert_eq
                    | rewrite lookup_insert_ne by congruence ].
  all: try done.
  all: split_and!; try done.
  eexists _, _, _, _, _, _, _, _.
  split_and!;
    [ reflexivity | reflexivity | eassumption | eassumption | eassumption
    | eassumption | eassumption | done.. | ].
  by rewrite <- !(assoc_L (++)).
Qed.

Lemma erwc_success w ugrd vgrd uer ver w' :
  earth_relative_wind_components ugrd vgrd w = (inr (uer, ver), w') →
  ∃ u v p crs x y ut vt,
    heap w !! ugrd = Some u ∧ heap w !! vgrd = Some v ∧
    da_coords u !! "metpy_crs" = Some (CrsCoord p) ∧ to_cartopy p = inr crs ∧
    coord_values u "x" = inr x ∧ coord_values u "y" = inr y ∧
    transform_vectors PlateCarree crs (meshgrid x y).1 (meshgrid x y).2
      (da_values u) (da_values v) = inr (ut, vt) ∧
    shape ut = shape (da_values u) ∧ shape vt = shape (da_values v) ∧
    heap w !! uer = None ∧ heap w !! ver = None ∧ uer ≠ ver ∧
    heap w' !! uer = Some (with_values u ut) ∧
    heap w' !! ver = Some (with_values v vt) ∧
    calls w' = calls w ++ [CallCartopyCrs; CallMeshgrid; CallPlateCarree;
                           CallTransformVectors; CallCopy; CallCopy;
                           CallSetValues; CallSetValues].
Proof.
  intros Hrun. pose proof (erwc_run w ugrd vgrd) as Hspec.
  rewrite Hrun in Hspec. tauto.
Qed.

Lemma erwc_frame w ugrd vgrd l :
  is_Some (heap w !! l) →
  heap (earth_relative_wind_components ugrd vgrd w).2 !! l = heap w !! l.
Proof.
  pose proof (erwc_run w ugrd vgrd) as Hspec.
  destruct (earth_relative_wind_components ugrd vgrd w) as [r w'].
  intros. by apply Hspec.
Qed.

(** Two calls whose inputs hold the same u-grid and v-grids with the same
    data end alike: with the same exception after the same library
    calls, or with outputs that carry the same transformed data. *)
Lemma erwc_two_runs w1 w2 ugrd1 vgrd1 ugrd2 vgrd2 du dv1 dv2 :
  heap w1 !! ugrd1 = Some du → heap w2 !! ugrd2 = Some du →
  heap w1 !! vgrd1 = Some dv1 → heap w2 !! vgrd2 = Some dv2 →
  da_values dv1 = da_values dv2 →
  match earth_relative_wind_components ugrd1 vgrd1 w1,
        earth_relative_wind_components ugrd2 vgrd2 w2 with
  | (inl e1, w1'), (inl e2, w2') =>
      e1 = e2 ∧ ∃ cs, calls w1' = calls w1 ++ cs ∧ calls w2' = calls w2 ++ cs
  | (inr (a1, b1), w1'), (inr (a2, b2), w2') =>
      ∃ ut vt,
        heap w1' !! a1 = Some (with_values du ut) ∧
        heap w2' !! a2 = Some (with_values du ut) ∧
        heap w1' !! b1 = Some (with_values dv1 vt) ∧
        heap w2' !! b2 = Some (with_values dv2 vt)
  | _, _ => False
  end.
Proof.
  intros Hu1 Hu2 Hv1 Hv2 Hvals.
  destruct (fresh_twice (heap w1) du) as (Hf1 & Hf2 & ? & ?).
  destruct (fresh_twice (heap w2) du) as (Hg1 & Hg2 & ? & ?).
  destruct dv1 as [vals1 ? ? ? ?], dv2 as [vals2 ? ? ? ?].
  simpl in Hvals. subst vals2.
  run_unfold.
  repeat run_step.
  all: try done.
  all: try (eexists _, _; cbn; split_and!;
            repeat first [ rewrite lookup_insert_eq
                         | rewrite lookup_insert_ne by congruence ];
            reflexivity).
  all: split; [done|].
  all: try (by exists []; rewrite !app_nil_r).
  all: eexists; split; cbn; rewrite <- ?(assoc_L (++)); reflexivity.
Qed.

(** An outcome whose call log grew is not an outcome in the old world. *)
Ltac log_grew :=
  let Hq := fresh in
  intros Hq; apply (f_equal (λ rw, length (calls rw.2))) in Hq;
  simpl in Hq; rewrite ?length_app in Hq; simpl in Hq; lia.

(** With a ['metpy_crs'] coordinate on the u-grid the call gets past its
    check: it does not end as the usage error does (the error raised in
    an untouched world), and it does not raise that error at all unless a
    library raises it. *)
Lemma erwc_passes_check w ugrd vgrd du :
  heap w !! ugrd = Some du →
  "metpy_crs" ∈ dom (da_coords du) →
  match earth_relative_wind_components ugrd vgrd w with
  | (r, w') =>
      (r, w') ≠ (inl (ValueError no_crs_message), w) ∧
      ((∀ p, to_cartopy p ≠ inl (ValueError no_crs_message)) →
       (∀ tgt src x y a b,
          transform_vectors tgt src x y a b ≠ inl (ValueError no_crs_message)) →
       r ≠ inl (ValueError no_crs_message))
  end.
Proof.
  intros Hu Hcrs.
  destruct (fresh_twice (heap w) du) as (Hf1 & Hf2 & ? & ?).
  run_unfold. rewrite Hu. cbn.
  rewrite decide_False by (by intros Hn; apply Hn).
  repeat run_step.
  all: split; [|intros Hcart Htv].
  all: try discriminate.
  all: try log_grew.
  all: try match goal with
           | Hc : coord_values _ _ = inl _ |- _ =>
               apply coord_values_error in Hc as [? ->]; discriminate
           end.
  all: congruence.
Qed.

(** C9: the coordinate reference system is read from the u-grid alone.
    When the u-grid carries a ['metpy_crs'] coordinate the call gets past
    its check whatever the v-grid carries: it does not end as the usage
    error does, and raises that [ValueError] only if a library does.
    And two calls whose v-grids hold the same data, but any metadata
    (no CRS, another CRS), end alike: the same exception, or the same
    transformed data, each v-output keeping the rest of its own input. *)
Theorem erwc_crs_from_ugrd_only w1 w2 ugrd1 vgrd1 ugrd2 vgrd2 du dv1 dv2 :
  heap w1 !! ugrd1 = Some du → heap w2 !! ugrd2 = Some du →
  heap w1 !! vgrd1 = Some dv1 → heap w2 !! vgrd2 = Some dv2 →
  "metpy_crs" ∈ dom (da_coords du) →
  da_values dv1 = da_values dv2 →
  earth_relative_wind_components ugrd1 vgrd1 w1
    ≠ (inl (ValueError no_crs_message), w1) ∧
  ((∀ p, to_cartopy p ≠ inl (ValueError no_crs_message)) →
   (∀ tgt src x y a b,
      transform_vectors tgt src x y a b ≠ inl (ValueError no_crs_message)) →
   (earth_relative_wind_components ugrd1 vgrd1 w1).1
     ≠ inl (ValueError no_crs_message)) ∧
  match earth_relative_wind_components ugrd1 vgrd1 w1,
        earth_relative_wind_components ugrd2 vgrd2 w2 with
  | (inl e1, _), (inl e2, _) => e1 = e2
  | (inr (uer1, ver1), w1'), (inr (uer2, ver2), w2') =>
      ∃ ut vt,
        heap w1' !! uer1 = Some (with_values du ut) ∧
        heap w2' !! uer2 = Some (with_values du ut) ∧
        heap w1' !! ver1 = Some (with_values dv1 vt) ∧
        heap w2' !! ver2 = Some (with_values dv2 vt)
  | _, _ => False
  end.
Proof.
  intros Hu1 Hu2 Hv1 Hv2 Hcrs Hvals.
  pose proof (erwc_passes_check w1 ugrd1 vgrd1 du Hu1 Hcrs) as Hpass.
  pose proof (erwc_two_runs w1 w2 ugrd1 vgrd1 ugrd2 vgrd2 du dv1 dv2
                Hu1 Hu2 Hv1 Hv2 Hvals) as Hruns.
  destruct (earth_relative_wind_components ugrd1 vgrd1 w1) as [r1 w1'],
           (earth_relative_wind_components ugrd2 vgrd2 w2) as [r2 w2'].
  destruct Hpass as [Hne Hlib]. split_and!; [done | done |].
  destruct r1 as [e1|[uer1 ver1]], r2 as [e2|[uer2 ver2]]; try done.
  by destruct Hruns.
Qed.

(** C10: the grids a call returns are its inputs with the data replaced
    and nothing else: dimensions, coordinates, attributes and name are
    those of the input, and the u-output still carries the projection
    tag of the grid the winds were relative to. *)
Theorem erwc_outputs_keep_metadata w ugrd vgrd uer ver w' :
  earth_relative_wind_components ugrd vgrd w = (inr (uer, ver), w') →
  ∃ u v u' v' p,
    heap w !! ugrd = Some u ∧ heap w !! vgrd = Some v ∧
    heap w' !! uer = Some u' ∧ heap w' !! ver = Some v' ∧
    u' = with_values u (da_values u') ∧ v' = with_values v (da_values v') ∧
    da_dims u' = da_dims u ∧ da_coords u' = da_coords u ∧
    da_attrs u' = da_attrs u ∧ da_name u' = da_name u ∧
    da_dims v' = da_dims v ∧ da_coords v' = da_coords v ∧
    da_attrs v' = da_attrs v ∧ da_name v' = da_name v ∧
    da_coords u !! "metpy_crs" = Some (CrsCoord p) ∧
    da_coords u' !! "metpy_crs" = Some (CrsCoord p) ∧
    da_coords v' !! "metpy_crs" = da_coords v !! "metpy_crs".
Proof.
  intros (u & v & p & crs & x & y & ut & vt & Hu & Hv & Hp & _ & _ & _ & _
          & _ & _ & _ & _ & _ & Hu' & Hv' & _)%erwc_success.
  exists u, v, (with_values u ut), (with_values v vt), p.
  by split_and!.
Qed.

(** *** The claims about [earth_relative_wind_components] *)

(** C1: when the u-grid carries no ['metpy_crs'] coordinate (in
    particular when neither input does), the call raises the usage
    error [ValueError] and nothing else happens: the world it ends in is
    the world it started in, with no library routine called and no
    object allocated.  The v-grid plays no part. *)
Theorem erwc_no_crs_usage_error w ugrd vgrd u :
  heap w !! ugrd = Some u →
  "metpy_crs" ∉ dom (da_coords u) →
  earth_relative_wind_components ugrd vgrd w
  = (inl (ValueError no_crs_message), w).
Proof.
  intros Hu Hcrs. run_unfold. rewrite Hu.
  by rewrite decide_True.
Qed.

(** C2: after a call that returns, each returned grid has the shape, the
    dimensions and the coordinate axes of the input it was copied from. *)
Theorem erwc_same_shape_and_axes w ugrd vgrd uer ver w' :
  earth_relative_wind_components ugrd vgrd w = (inr (uer, ver), w') →
  ∃ u v u' v',
    heap w !! ugrd = Some u ∧ heap w !! vgrd = Some v ∧
    heap w' !! uer = Some u' ∧ heap w' !! ver = Some v' ∧
    shape (da_values u') = shape (da_values u) ∧
    da_dims u' = da_dims u ∧ da_coords u' = da_coords u ∧
    shape (da_values v') = shape (da_values v) ∧
    da_dims v' = da_dims v ∧ da_coords v' = da_coords v.
Proof.
  intros (u & v & p & crs & x & y & ut & vt & Hu & Hv & _ & _ & _ & _ & _
          & Hsu & Hsv & _ & _ & _ & Hu' & Hv' & _)%erwc_success.
  exists u, v, (with_values u ut), (with_values v vt).
  by split_and!.
Qed.

(** C3: a call, whatever its outcome, leaves both inputs as they were,
    and with them every object that existed before the call; the grids
    it returns are other objects than its inputs. *)
Theorem erwc_inputs_unmodified w ugrd vgrd :
  let res := earth_relative_wind_components ugrd vgrd w in
  heap res.2 !! ugrd = heap w !! ugrd ∧
  heap res.2 !! vgrd = heap w !! vgrd ∧
  (∀ l d, heap w !! l = Some d → heap res.2 !! l = Some d) ∧
  match res.1 with
  | inl _ => True
  | inr (uer, ver) => uer ≠ ugrd ∧ uer ≠ vgrd ∧ ver ≠ ugrd ∧ ver ≠ vgrd
  end.
Proof.
  intros res. subst res.
  pose proof (erwc_run w ugrd vgrd) as Hspec.
  destruct (earth_relative_wind_components ugrd vgrd w) as [r w'].
  destruct Hspec as (Hframe & Hu & Hv & Hr). simpl.
  split_and!; [done | done | |].
  - intros l d Hl. rewrite Hframe by eauto. done.
  - destruct r as [e|[uer ver]]; [done|].
    destruct Hr as (u & v & ? & ? & ? & ? & ? & ? & Hu0 & Hv0 & _ & _ & _ & _ & _
                    & _ & _ & Huer & Hver & _).
    split_and!; congruence.
Qed.

(** C5: two calls on inputs that hold the same grids (same data, axes,
    coordinates and attributes), from any two worlds and under any two
    pairs of names, end alike: both raise the same exception, or both
    return, and the grids they return are equal. *)
Theorem erwc_deterministic w1 w2 ugrd1 vgrd1 ugrd2 vgrd2 du dv :
  heap w1 !! ugrd1 = Some du → heap w2 !! ugrd2 = Some du →
  heap w1 !! vgrd1 = Some dv → heap w2 !! vgrd2 = Some dv →
  match earth_relative_wind_components ugrd1 vgrd1 w1,
        earth_relative_wind_components ugrd2 vgrd2 w2 with
  | (inl e1, _), (inl e2, _) => e1 = e2
  | (inr (uer1, ver1), w1'), (inr (uer2, ver2), w2') =>
      is_Some (heap w1' !! uer1) ∧ is_Some (heap w1' !! ver1) ∧
      heap w1' !! uer1 = heap w2' !! uer2 ∧
      heap w1' !! ver1 = heap w2' !! ver2
  | _, _ => False
  end.
Proof.
  intros Hu1 Hu2 Hv1 Hv2.
  pose proof (erwc_two_runs w1 w2 ugrd1 vgrd1 ugrd2 vgrd2 du dv dv
                Hu1 Hu2 Hv1 Hv2 eq_refl) as Hruns.
  destruct (earth_relative_wind_components ugrd1 vgrd1 w1) as [[e1|[uer1 ver1]] w1'],
           (earth_relative_wind_components ugrd2 vgrd2 w2) as [[e2|[uer2 ver2]] w2'];
    try done.
  - by destruct Hruns.
  - destruct Hruns as (ut & vt & -> & -> & -> & ->). eauto.
Qed.



(** *** Further properties of [earth_relative_wind_components] *)

(** What an elementwise library says about the arrays it was given and
    the arrays it returned. *)
Lemma pointwise_shapes k tgt src (xx yy a b ut vt : ndarray Scalar) :
  pointwise_transform k →
  transform_vectors tgt src xx yy a b = inr (ut, vt) →
  shape a = shape xx ∧ shape b = shape xx ∧
  shape ut = shape a ∧ shape vt = shape b.
Proof.
  intros Hk. rewrite Hk. unfold elementwise.
  case_decide as Hsh; [|done]. intros [= <- <-]. simpl.
  destruct Hsh as (Hxy & Hyu & Huv). split_and!; congruence.
Qed.

Lemma pointwise_accepts k tgt src (xx yy a b : ndarray Scalar) e :
  pointwise_transform k →
  transform_vectors tgt src xx yy a b = inl e →
  e = ValueError "x, y, u and v arrays must be the same shape" ∧
  ¬ (shape xx = shape yy ∧ shape a = shape xx ∧ shape b = shape xx).
Proof.
  intros Hk. rewrite Hk. unfold elementwise.
  case_decide as Hsh; [done|]. intros [= <-]. split; [done|].
  intros (Hxy & Ha & Hb). apply Hsh. split_and!; congruence.
Qed.

(** Closing a branch of a symbolic run that an elementwise library
    excludes. *)
Ltac pointwise_absurd Hk :=
  repeat match goal with
         | Htv : transform_vectors _ _ _ _ _ _ = inr _ |- _ =>
             apply (pointwise_shapes _ _ _ _ _ _ _ _ _ Hk) in Htv;
             simpl in Htv; destruct Htv as (? & ? & ? & ?)
         | Htv : transform_vectors _ _ _ _ _ _ = inl _ |- _ =>
             apply (pointwise_accepts _ _ _ _ _ _ _ _ Hk) in Htv;
             simpl in Htv; destruct Htv as [-> ?]
         end;
  first [ done | congruence
        | match goal with Hn : _ ∉ _ |- _ => exfalso; apply Hn, elem_of_dom; by eauto end
        | match goal with Hn : ¬ _ |- _ => exfalso; apply Hn; split_and!; done end
        | idtac ].

(** The store after a call that returned: the old store and two new
    objects. *)
Lemma erwc_final_heap w ugrd vgrd :
  match earth_relative_wind_components ugrd vgrd w with
  | (inl _, _) => True
  | (inr (uer, ver), w') =>
      ∃ u' v', heap w !! uer = None ∧ heap w !! ver = None ∧ uer ≠ ver ∧
               heap w' = <[ver := v']> (<[uer := u']> (heap w))
  end.
Proof.
  destruct (heap w !! ugrd) as [du|] eqn:Hu.
  2: { run_unfold. by rewrite Hu. }
  destruct (fresh_twice (heap w) du) as (Hf1 & Hf2 & ? & ?).
  run_unfold.
  repeat run_step.
  all: try done.
  eexists _, _. split_and!; [done | done | done |].
  cbn. apply map_eq. intros l'.
  rewrite !lookup_insert. repeat case_decide; first [reflexivity | congruence].
Qed.

(** With an elementwise library, a call that raises leaves the store as
    it found it. *)
Lemma erwc_failure_heap k w ugrd vgrd :
  pointwise_transform k →
  match earth_relative_wind_components ugrd vgrd w with
  | (inl _, w') => heap w' = heap w
  | (inr _, _) => True
  end.
Proof.
  intros Hk.
  destruct (heap w !! ugrd) as [du|] eqn:Hu.
  2: { run_unfold. by rewrite Hu. }
  destruct (fresh_twice (heap w) du) as (Hf1 & Hf2 & ? & ?).
  run_unfold.
  repeat run_step.
  all: try done.
  all: exfalso; pointwise_absurd Hk.
Qed.

(** A call on grids with a convertible CRS, both axes and data of the
    shape of the axes returns, if the library is elementwise. *)
Lemma erwc_returns_run k w ugrd vgrd u v p crs x y :
  pointwise_transform k →
  heap w !! ugrd = Some u → heap w !! vgrd = Some v →
  da_coords u !! "metpy_crs" = Some (CrsCoord p) → to_cartopy p = inr crs →
  coord_values u "x" = inr x → coord_values u "y" = inr y →
  shape (da_values u) = (length y, length x) →
  shape (da_values v) = (length y, length x) →
  match earth_relative_wind_components ugrd vgrd w with
  | (inl _, _) => False
  | (inr _, _) => True
  end.
Proof.
  intros Hk Hu Hv Hp Hcrs Hx Hy Hsu Hsv.
  destruct (fresh_twice (heap w) u) as (Hf1 & Hf2 & ? & ?).
  run_unfold.
  repeat run_step.
  all: try done.
  all: pointwise_absurd Hk.
Qed.

(** X3: data that do not have the shape of the axes (a transposed or an
    unsqueezed grid, or two grids of different shapes) are refused by an
    elementwise library with its [ValueError], after four library calls
    and before anything is copied: the store is the one the call found. *)
Theorem erwc_shape_mismatch_rejected k w ugrd vgrd u v p crs x y :
  pointwise_transform k →
  heap w !! ugrd = Some u → heap w !! vgrd = Some v →
  da_coords u !! "metpy_crs" = Some (CrsCoord p) → to_cartopy p = inr crs →
  da_coords u !! "x" = Some (Axis x) → da_coords u !! "y" = Some (Axis y) →
  ¬ (shape (da_values u) = (length y, length x)
     ∧ shape (da_values v) = (length y, length x)) →
  earth_relative_wind_components ugrd vgrd w
  = (inl (ValueError "x, y, u and v arrays must be the same shape"),
     mkWorld (heap w) (calls w ++ [CallCartopyCrs; CallMeshgrid; CallPlateCarree;
                                   CallTransformVectors])).
Proof.
  intros Hk Hu Hv Hp Hcrs Hx%coord_values_axis Hy%coord_values_axis Hsh.
  destruct (fresh_twice (heap w) u) as (Hf1 & Hf2 & ? & ?).
  set (res := (inl (ValueError "x, y, u and v arrays must be the same shape"),
               mkWorld (heap w) (calls w ++ [CallCartopyCrs; CallMeshgrid;
                                             CallPlateCarree; CallTransformVectors]))).
  enough (match earth_relative_wind_components ugrd vgrd w with
          | (r, w') => (r, w') = res
          end) as Hm by (by destruct (earth_relative_wind_components ugrd vgrd w)).
  subst res. run_unfold.
  repeat run_step.
  all: pointwise_absurd Hk.
  all: try (exfalso; apply Hsh; split; congruence).
  by rewrite <- !(assoc_L (++)).
Qed.

(** X4: a u-grid on which [x] is neither a coordinate nor a dimension (a
    latitude-longitude grid, say), or on which [x] can be read and [y]
    is neither, is refused with [AttributeError] right after the CRS was
    converted; nothing is copied.  The library plays no part. *)
Theorem erwc_missing_axis_rejected w ugrd vgrd u p crs :
  heap w !! ugrd = Some u →
  da_coords u !! "metpy_crs" = Some (CrsCoord p) → to_cartopy p = inr crs →
  da_coords u !! "x" = None ∧ "x" ∉ da_dims u
  ∨ (∃ x, coord_values u "x" = inr x)
    ∧ da_coords u !! "y" = None ∧ "y" ∉ da_dims u →
  ∃ msg,
    earth_relative_wind_components ugrd vgrd w
    = (inl (AttributeError msg), mkWorld (heap w) (calls w ++ [CallCartopyCrs])).
Proof.
  intros Hu Hp Hcrs Haxis.
  assert ("metpy_crs" ∈ dom (da_coords u)) as Hdom by (apply elem_of_dom; eauto).
  run_unfold. rewrite Hu. cbn. rewrite decide_False by (by intros Hn; apply Hn).
  rewrite Hp. cbn. rewrite Hcrs. cbn.
  destruct Haxis as [[Hx Hdx]|[[x Hx] [Hy Hdy]]].
  - destruct (coord_values_missing u "x" Hx Hdx) as [msg ->]. eauto.
  - rewrite Hx. cbn.
    destruct (coord_values_missing u "y" Hy Hdy) as [msg ->]. eauto.
Qed.


(** X1: on inputs that meet the preconditions (the u-grid carries a CRS
    that converts, and [x] and [y] axes; both grids hold data of the
    shape [(len y, len x)]) the call returns, if the library is
    elementwise. *)
Theorem erwc_returns k w ugrd vgrd u v p crs x y :
  pointwise_transform k →
  heap w !! ugrd = Some u → heap w !! vgrd = Some v →
  da_coords u !! "metpy_crs" = Some (CrsCoord p) → to_cartopy p = inr crs →
  da_coords u !! "x" = Some (Axis x) → da_coords u !! "y" = Some (Axis y) →
  shape (da_values u) = (length y, length x) →
  shape (da_values v) = (length y, length x) →
  ∃ uer ver w', earth_relative_wind_components ugrd vgrd w = (inr (uer, ver), w').
Proof.
  intros Hk Hu Hv Hp Hcrs Hx%coord_values_axis Hy%coord_values_axis Hsu Hsv.
  pose proof (erwc_returns_run k w ugrd vgrd u v p crs x y
                Hk Hu Hv Hp Hcrs Hx Hy Hsu Hsv) as Hret.
  destruct (earth_relative_wind_components ugrd vgrd w) as [[e|[uer ver]] w'];
    [done | eauto].
Qed.

(** X2: with an elementwise library a call that raises, for whatever
    reason, leaves no object behind: the store is the one it found. *)
Theorem erwc_failure_leaves_store k w ugrd vgrd e w' :
  pointwise_transform k →
  earth_relative_wind_components ugrd vgrd w = (inl e, w') →
  heap w' = heap w.
Proof.
  intros Hk Hrun. pose proof (erwc_failure_heap k w ugrd vgrd Hk) as Hheap.
  by rewrite Hrun in Hheap.
Qed.

(** X5: a call that returns allocates exactly two objects, the two grids
    it returns; they are new, and distinct even when one grid was passed
    for both arguments. *)
Theorem erwc_allocates_two w ugrd vgrd uer ver w' :
  earth_relative_wind_components ugrd vgrd w = (inr (uer, ver), w') →
  (uer ∉ dom (heap w)) ∧ (ver ∉ dom (heap w)) ∧ uer ≠ ver ∧
  dom (heap w') = {[uer; ver]} ∪ dom (heap w).
Proof.
  intros Hrun. pose proof (erwc_final_heap w ugrd vgrd) as Hheap.
  rewrite Hrun in Hheap. destruct Hheap as (u' & v' & Hu & Hv & Hne & ->).
  split_and!; [by apply not_elem_of_dom | by apply not_elem_of_dom | done |].
  rewrite !dom_insert_L. apply set_eq. intros l.
  rewrite !elem_of_union, !elem_of_singleton. tauto.
Qed.


End WindTheory.

(** ** The claims at a concrete input *)

Section WindExamples.
#[local] Existing Instance example_libraries.

Lemma erwc_no_crs_usage_error_witness :
  earth_relative_wind_components 1 2
    (example_world example_ugrd_no_crs example_vgrd_no_crs)
  = (inl (ValueError no_crs_message),
     example_world example_ugrd_no_crs example_vgrd_no_crs).
Proof.
  apply (erwc_no_crs_usage_error _ 1 2 example_ugrd_no_crs)%positive.
  - reflexivity.
  - apply not_elem_of_dom. reflexivity.
Defined.

Lemma example_result_eq :
  earth_relative_wind_components 1 2 (example_world example_ugrd example_vgrd)
  = (inr (3, 4)%positive, example_result.2).
Proof. vm_compute. reflexivity. Qed.

Lemma erwc_same_shape_and_axes_witness :
  ∃ u v u' v',
    heap (example_world example_ugrd example_vgrd) !! 1%positive = Some u ∧
    heap (example_world example_ugrd example_vgrd) !! 2%positive = Some v ∧
    heap example_result.2 !! 3%positive = Some u' ∧
    heap example_result.2 !! 4%positive = Some v' ∧
    shape (da_values u') = shape (da_values u) ∧
    da_dims u' = da_dims u ∧ da_coords u' = da_coords u ∧
    shape (da_values v') = shape (da_values v) ∧
    da_dims v' = da_dims v ∧ da_coords v' = da_coords v.
Proof.
  apply (erwc_same_shape_and_axes
           (example_world example_ugrd example_vgrd) 1 2 3 4 example_result.2).
  exact example_result_eq.
Defined.

Lemma erwc_deterministic_witness :
  match earth_relative_wind_components 1 2 (example_world example_ugrd example_vgrd),
        earth_relative_wind_components 7 5 example_world_other with
  | (inl e1, _), (inl e2, _) => e1 = e2
  | (inr (uer1, ver1), w1'), (inr (uer2, ver2), w2') =>
      is_Some (heap w1' !! uer1) ∧ is_Some (heap w1' !! ver1) ∧
      heap w1' !! uer1 = heap w2' !! uer2 ∧
      heap w1' !! ver1 = heap w2' !! ver2
  | _, _ => False
  end.
Proof.
  apply (erwc_deterministic (example_world example_ugrd example_vgrd)
           example_world_other 1 2 7 5 example_ugrd example_vgrd);
    reflexivity.
Defined.

Lemma quarter_turn_pointwise : @pointwise_transform example_libraries quarter_turn.
Proof. intros tgt src x y u v. reflexivity. Qed.



Lemma erwc_crs_from_ugrd_only_witness :
  earth_relative_wind_components 1 2 (example_world example_ugrd example_vgrd_no_crs)
    ≠ (inl (ValueError no_crs_message),
       example_world example_ugrd example_vgrd_no_crs) ∧
  ((∀ p, to_cartopy p ≠ inl (ValueError no_crs_message)) →
   (∀ tgt src x y a b,
      transform_vectors tgt src x y a b ≠ inl (ValueError no_crs_message)) →
   (earth_relative_wind_components 1 2
      (example_world example_ugrd example_vgrd_no_crs)).1
     ≠ inl (ValueError no_crs_message)) ∧
  match earth_relative_wind_components 1 2
          (example_world example_ugrd example_vgrd_no_crs),
        earth_relative_wind_components 7 5 example_world_other with
  | (inl e1, _), (inl e2, _) => e1 = e2
  | (inr (uer1, ver1), w1'), (inr (uer2, ver2), w2') =>
      ∃ ut vt,
        heap w1' !! uer1 = Some (with_values example_ugrd ut) ∧
        heap w2' !! uer2 = Some (with_values example_ugrd ut) ∧
        heap w1' !! ver1 = Some (with_values example_vgrd_no_crs vt) ∧
        heap w2' !! ver2 = Some (with_values example_vgrd vt)
  | _, _ => False
  end.
Proof.
  apply (erwc_crs_from_ugrd_only
           (example_world example_ugrd example_vgrd_no_crs) example_world_other
           1 2 7 5 example_ugrd example_vgrd_no_crs example_vgrd);
    reflexivity.
Defined.

Lemma erwc_outputs_keep_metadata_witness :
  ∃ u v u' v' p,
    heap (example_world example_ugrd example_vgrd) !! 1%positive = Some u ∧
    heap (example_world example_ugrd example_vgrd) !! 2%positive = Some v ∧
    heap example_result.2 !! 3%positive = Some u' ∧
    heap example_result.2 !! 4%positive = Some v' ∧
    u' = with_values u (da_values u') ∧ v' = with_values v (da_values v') ∧
    da_dims u' = da_dims u ∧ da_coords u' = da_coords u ∧
    da_attrs u' = da_attrs u ∧ da_name u' = da_name u ∧
    da_dims v' = da_dims v ∧ da_coords v' = da_coords v ∧
    da_attrs v' = da_attrs v ∧ da_name v' = da_name v ∧
    da_coords u !! "metpy_crs" = Some (CrsCoord p) ∧
    da_coords u' !! "metpy_crs" = Some (CrsCoord p) ∧
    da_coords v' !! "metpy_crs" = da_coords v !! "metpy_crs".
Proof.
  apply (erwc_outputs_keep_metadata
           (example_world example_ugrd example_vgrd) 1 2 3 4 example_result.2).
  exact example_result_eq.
Defined.
Lemma erwc_returns_witness :
  ∃ uer ver w',
    earth_relative_wind_components 1 2 (example_world example_ugrd example_vgrd)
    = (inr (uer, ver), w').
Proof.
  apply (@erwc_returns example_libraries quarter_turn
           (example_world example_ugrd example_vgrd) 1 2 example_ugrd example_vgrd
           false false [10; 20; 30]%Z [100; 200]%Z);
    [exact quarter_turn_pointwise | reflexivity..].
Defined.

Lemma example_mismatch_eq :
  earth_relative_wind_components 1 2
    (example_world example_ugrd example_vgrd_transposed)
  = (inl (ValueError "x, y, u and v arrays must be the same shape"),
     (earth_relative_wind_components 1 2
        (example_world example_ugrd example_vgrd_transposed)).2).
Proof. vm_compute. reflexivity. Qed.

Lemma erwc_failure_leaves_store_witness :
  heap (earth_relative_wind_components 1 2
          (example_world example_ugrd example_vgrd_transposed)).2
  = heap (example_world example_ugrd example_vgrd_transposed).
Proof.
  exact (@erwc_failure_leaves_store example_libraries quarter_turn _ 1 2 _ _
           quarter_turn_pointwise example_mismatch_eq)%positive.
Defined.

Lemma erwc_shape_mismatch_rejected_witness :
  earth_relative_wind_components 1 2
    (example_world example_ugrd example_vgrd_transposed)
  = (inl (ValueError "x, y, u and v arrays must be the same shape"),
     mkWorld (heap (example_world example_ugrd example_vgrd_transposed))
       (calls (example_world example_ugrd example_vgrd_transposed)
        ++ [CallCartopyCrs; CallMeshgrid; CallPlateCarree; CallTransformVectors])).
Proof.
  apply (@erwc_shape_mismatch_rejected example_libraries quarter_turn
           (example_world example_ugrd example_vgrd_transposed) 1 2
           example_ugrd example_vgrd_transposed
           false false [10; 20; 30]%Z [100; 200]%Z);
    [exact quarter_turn_pointwise | reflexivity.. |].
  intros [_ Hv]. discriminate Hv.
Defined.

Lemma erwc_missing_axis_rejected_witness :
  ∃ msg,
    earth_relative_wind_components 1 2
      (example_world example_ugrd_latlon example_vgrd)
    = (inl (AttributeError msg),
       mkWorld (heap (example_world example_ugrd_latlon example_vgrd))
         (calls (example_world example_ugrd_latlon example_vgrd)
          ++ [CallCartopyCrs])).
Proof.
  apply (erwc_missing_axis_rejected
           (example_world example_ugrd_latlon example_vgrd) 1 2
           example_ugrd_latlon true true);
    [reflexivity.. |].
  left. split; [reflexivity|].
  intros Hin. repeat (apply elem_of_cons in Hin as [Hin|Hin]; [discriminate|]).
  by apply elem_of_nil in Hin.
Defined.

Lemma erwc_allocates_two_witness :
  (3%positive ∉ dom (heap (example_world example_ugrd example_vgrd))) ∧
  (4%positive ∉ dom (heap (example_world example_ugrd example_vgrd))) ∧
  3%positive ≠ 4%positive ∧
  dom (heap example_result.2)
  = {[3%positive; 4%positive]} ∪ dom (heap (example_world example_ugrd example_vgrd)).
Proof.
  exact (erwc_allocates_two _ 1 2 3 4 _ example_result_eq)%positive.
Defined.


End WindExamples.

(** ** Notebook cells *)

Section ScriptTheory.
Context {Obj : Type}.
Implicit Types (oracle : Oracle Obj) (tr cs : list (Event Obj)) (c : Call Obj).
Implicit Types (f g : string) (n m : nat).

Lemma run_bind oracle {A B} (p : Prog Obj A) (q : A → Prog Obj B) tr :
  run oracle (pbind p q) tr
  = match run oracle p tr with
    | (inr a, tr') => run oracle (q a) tr'
    | (inl e, tr') => (inl e, tr')
    end.
Proof.
  revert tr. induction p as [a|e|c k IH]; intros tr; simpl; [done | done |].
  destruct (oracle tr c); [done | apply IH].
Qed.

(** No program of this language can catch: the constructors are return,
    raise and call, and [run] stops at the first exception. *)
Lemma run_propagates_uncaught oracle {A} (p : Prog Obj A) :
  propagates_uncaught oracle p.
Proof.
  induction p as [a|e|c k IH]; intros tr; simpl.
  - exists []. rewrite app_nil_r. split_and!; [done | |];
      intros pre ? ? post Hcs; by destruct pre.
  - exists []. rewrite app_nil_r. split_and!; [done | |];
      intros pre ? ? post Hcs; by destruct pre.
  - destruct (oracle tr c) as [e|v] eqn:Hc.
    + exists [(c, inl e)]. split_and!; [done | |].
      * intros [|? [|]] c' r post [=]; simplify_eq. by rewrite app_nil_r.
      * intros [|? [|]] c' e' post [=]; by simplify_eq.
    + destruct (IH v (tr ++ [(c, inr v)])) as (cs & Htr & Hans & Hexc).
      exists ((c, inr v) :: cs). split_and!.
      * by rewrite Htr, <- (assoc_L (++)).
      * intros [|ev pre] c' r post [=]; simplify_eq; [by rewrite app_nil_r|].
        rewrite cons_middle, (assoc_L (++)). eauto.
      * intros [|ev pre] c' e' post [=]; simplify_eq. eauto.
Qed.

(** *** Counting the calls of one function *)

Lemma count_calls_app f tr cs :
  count_calls f (tr ++ cs) = count_calls f tr + count_calls f cs.
Proof. unfold count_calls. by rewrite filter_app, length_app. Qed.

Lemma calls_at_most_mono f n m {A} (p : Prog Obj A) :
  (n ≤ m)%nat → calls_at_most f n p → calls_at_most f m p.
Proof. intros Hnm Hp oracle tr. specialize (Hp oracle tr). lia. Qed.

Lemma calls_at_most_ret f {A} (a : A) : calls_at_most f 0 (Ret (Obj := Obj) a).
Proof. intros oracle tr. simpl. lia. Qed.

Lemma calls_at_most_raise f {A} e : calls_at_most f 0 (Raise (Obj := Obj) (A := A) e).
Proof. intros oracle tr. simpl. lia. Qed.

Lemma calls_at_most_do f n c {A} (k : Value Obj → Prog Obj A) :
  (∀ v, calls_at_most f n (k v)) →
  calls_at_most f ((if decide (fn c = f) then 1 else 0) + n) (Do c k).
Proof.
  intros Hk oracle tr. simpl.
  assert (∀ r, count_calls f (tr ++ [(c, r)])
               = count_calls f tr + (if decide (fn c = f) then 1 else 0)) as Hc.
  { intros r. rewrite count_calls_app. f_equal. unfold count_calls.
    rewrite filter_cons. simpl. by case_decide. }
  destruct (oracle tr c) as [e|v].
  - simpl. rewrite Hc. lia.
  - specialize (Hk v oracle (tr ++ [(c, inr v)])). rewrite Hc in Hk. lia.
Qed.

Lemma calls_at_most_bind f n m {A B} (p : Prog Obj A) (q : A → Prog Obj B) :
  calls_at_most f n p → (∀ a, calls_at_most f m (q a)) →
  calls_at_most f (n + m) (pbind p q).
Proof.
  intros Hp Hq oracle tr. rewrite run_bind.
  specialize (Hp oracle tr).
  destruct (run oracle p tr) as [[e|a] tr']; simpl in *; [lia|].
  specialize (Hq a oracle tr'). lia.
Qed.

Lemma calls_at_most_call f g a :
  calls_at_most f (if decide (g = f) then 1 else 0) (call (Obj := Obj) g a).
Proof.
  eapply calls_at_most_mono; [|apply (calls_at_most_do f 0); intros; apply calls_at_most_ret].
  simpl. lia.
Qed.

Lemma calls_at_most_call_kw f g a kw :
  calls_at_most f (if decide (g = f) then 1 else 0) (call_kw (Obj := Obj) g a kw).
Proof.
  eapply calls_at_most_mono; [|apply (calls_at_most_do f 0); intros; apply calls_at_most_ret].
  simpl. lia.
Qed.

Lemma calls_at_most_getitem f (o key : Value Obj) :
  calls_at_most f (if decide ("getitem" = f) then 1 else 0) (getitem o key).
Proof.
  unfold getitem.
  destruct key; try apply calls_at_most_call.
  destruct o; try apply calls_at_most_call.
  eapply calls_at_most_mono; [apply Nat.le_0_l|].
  repeat case_match; first [apply calls_at_most_ret | apply calls_at_most_raise].
Qed.

Lemma calls_at_most_format f (v : Value Obj) spec :
  calls_at_most f ((if decide ("format" = f) then 1 else 0) + 0) (format v spec).
Proof.
  apply calls_at_most_bind; [apply calls_at_most_call|].
  intros r. destruct r; first [apply calls_at_most_ret | apply calls_at_most_raise].
Qed.

Lemma calls_at_most_for_each f {A} l (body : Value Obj → Prog Obj A) :
  (∀ x, calls_at_most f 0 (body x)) → calls_at_most f 0 (for_each l body).
Proof.
  intros Hbody. induction l as [|x l IH]; simpl; [apply calls_at_most_ret|].
  apply (calls_at_most_bind f 0 0); [done|]. intros a.
  apply (calls_at_most_bind f 0 0); [done|]. intros r. apply calls_at_most_ret.
Qed.

Lemma calls_at_most_for_in f {A} o (body : Value Obj → Prog Obj A) :
  (∀ x, calls_at_most f 0 (body x)) →
  calls_at_most f ((if decide ("iter" = f) then 1 else 0) + 0) (for_in o body).
Proof.
  intros Hbody. unfold for_in.
  destruct o; try (by eapply calls_at_most_mono; [|by apply calls_at_most_for_each]; lia).
  all: apply calls_at_most_bind; [apply calls_at_most_call|]; intros items.
  all: destruct items; first [by apply calls_at_most_for_each | apply calls_at_most_raise].
Qed.

Lemma calls_at_most_unpack2 f (o : Value Obj) :
  calls_at_most f ((if decide ("iter" = f) then 1 else 0) + 0) (unpack2 o).
Proof.
  unfold unpack2. apply calls_at_most_bind.
  - assert (calls_at_most f (if decide ("iter" = f) then 1 else 0)
              (pbind (call "iter" [o]) (λ items,
                 match items with
                 | VList l => Ret l
                 | _ => Raise (TypeError "iter() returned non-iterator")
                 end))) as Hiter.
    { eapply calls_at_most_mono;
        [|apply (calls_at_most_bind f (if decide ("iter" = f) then 1 else 0) 0);
          [apply calls_at_most_call|]]; [lia|].
      intros items. destruct items;
        first [apply calls_at_most_ret | apply calls_at_most_raise]. }
    destruct o; try exact Hiter.
    eapply calls_at_most_mono; [|apply calls_at_most_ret]. lia.
  - intros l. repeat case_match;
      first [apply calls_at_most_ret | apply calls_at_most_raise].
Qed.

(** Bounding a cell: one step per statement, the arithmetic at the end. *)
Ltac calls_bound :=
  unfold mbind, Prog_bind, mret, Prog_ret;
  repeat first
    [ apply calls_at_most_ret
    | eapply calls_at_most_bind;
      [ first [ apply calls_at_most_call | apply calls_at_most_call_kw
              | apply calls_at_most_getitem | apply calls_at_most_format
              | apply calls_at_most_unpack2
              | apply calls_at_most_for_in; intros; apply calls_at_most_call ]
      | intros ] ].

(** *** Calls a completed run has made *)

Lemma calls_at_least_zero f {A} (p : Prog Obj A) : calls_at_least f 0 p.
Proof.
  intros oracle tr a tr' Hrun.
  destruct (run_propagates_uncaught oracle p tr) as (cs & Htr & _).
  rewrite Hrun in Htr. simpl in Htr. subst tr'.
  rewrite count_calls_app. lia.
Qed.

Lemma calls_at_least_mono f n m {A} (p : Prog Obj A) :
  (m ≤ n)%nat → calls_at_least f n p → calls_at_least f m p.
Proof. intros Hnm Hp oracle tr a tr' Hrun. specialize (Hp oracle tr a tr' Hrun). lia. Qed.

Lemma calls_at_least_bind f n m {A B} (p : Prog Obj A) (q : A → Prog Obj B) :
  calls_at_least f n p → (∀ a, calls_at_least f m (q a)) →
  calls_at_least f (n + m) (pbind p q).
Proof.
  intros Hp Hq oracle tr b tr'. rewrite run_bind.
  destruct (run oracle p tr) as [[e|a] tr1] eqn:Hrun; [done|].
  intros Hrun'.
  specialize (Hp oracle tr a tr1 Hrun). specialize (Hq a oracle tr1 b tr' Hrun').
  lia.
Qed.

Lemma calls_at_least_call_kw f g a kw :
  calls_at_least f (if decide (g = f) then 1 else 0) (call_kw (Obj := Obj) g a kw).
Proof.
  intros oracle tr v tr'. simpl.
  destruct (oracle tr _) as [e|v']; [done|]. intros [= <- <-].
  rewrite count_calls_app. unfold count_calls at 3.
  rewrite filter_cons. simpl. case_decide; simpl; lia.
Qed.

Lemma calls_at_least_call f g a :
  calls_at_least f (if decide (g = f) then 1 else 0) (call (Obj := Obj) g a).
Proof. apply calls_at_least_call_kw. Qed.

(** The calls a cell has made for certain when it returns: those it
    makes as statements of its own. *)
Ltac calls_floor :=
  unfold mbind, Prog_bind, mret, Prog_ret;
  repeat (eapply calls_at_least_bind;
          [ first [ apply calls_at_least_call | apply calls_at_least_call_kw
                  | apply calls_at_least_zero ]
          | intros ]);
  apply calls_at_least_zero.

Lemma fetched_once_intro f {A} (p : Prog Obj A) :
  calls_at_most f 1 p → calls_at_least f 1 p → fetched_once f p.
Proof.
  intros Hmost Hleast. split; [done|]. intros oracle a tr Hrun.
  specialize (Hmost oracle []). specialize (Hleast oracle [] a tr Hrun).
  rewrite Hrun in Hmost. simpl in Hmost.
  change (count_calls f []) with 0 in *. lia.
Qed.

(** X12 (claim C8): each remote fetch of the three notebooks is a single
    request.  Whatever the libraries and servers answer, a cell issues
    each of its remote calls at most once in a run (after a failure
    nothing is asked again), and exactly once in a run that gets to the
    end of the cell. *)
Theorem notebooks_fetch_once :
  Forall (λ f, fetched_once f (glm_cells (Obj := Obj))) glm_remote_calls ∧
  (∀ units : Value Obj,
     Forall (λ f, fetched_once f (vorticity_data_cell units)) vorticity_remote_calls) ∧
  Forall (λ f, fetched_once f (tropopause_data_cell (Obj := Obj)))
    tropopause_remote_calls.
Proof.
  split_and!; [|intros units|].
  all: repeat apply Forall_cons_2; try apply Forall_nil_2.
  all: apply fetched_once_intro.
  all: try (eapply calls_at_most_mono; cycle 1;
            [ first [ unfold glm_cells; calls_bound
                    | unfold vorticity_data_cell; calls_bound
                    | unfold tropopause_data_cell; calls_bound ]
            | vm_compute; lia ]).
  all: eapply calls_at_least_mono; cycle 1;
    [ first [ unfold glm_cells; calls_floor
            | unfold vorticity_data_cell; calls_floor
            | unfold tropopause_data_cell; calls_floor ]
    | vm_compute; lia ].
Qed.

(** A run that ends with a value went through each of its calls. *)
Lemma run_call_inr oracle {A} c (q : Value Obj → Prog Obj A) tr a tr' :
  run oracle (pbind (Do c Ret) q) tr = (inr a, tr') →
  ∃ v, run oracle (q v) (tr ++ [(c, inr v)]) = (inr a, tr').
Proof. simpl. destruct (oracle tr c) as [e|v]; [done | eauto]. Qed.

(** X11 (claim C7): when the cell of the dynamic-tropopause notebook runs
    through,
    its transcript ends with three isosurface interpolations and there is
    no other.  Each one takes [pvor.values * 1e6] as level variable,
    threshold 2 and [bottom_up_search=False], and interpolates
    [potemp.values], [uwind.values] and [vwind.values] in turn;
    [DT_potemp] is the answer of the first, [DT_uwnd] and [DT_vwnd] are
    the answers of the other two multiplied by [units('m/s')] and
    converted with [.to(units.knots)]. *)
Theorem tropopause_isosurface_calls oracle (units ds : Value Obj) vars tr :
  run oracle (tropopause_compute_cell units ds) [] = (inr vars, tr) →
  ∃ pre pv lvl th pv' lvl' uv iso_u mps q_u kn pv'' lvl'' vv iso_v mps' q_v kn',
    tr = pre ++
      [ (mkCall "getattr" [pvor vars; VStr "values"] [], inr pv);
        (mkCall "*" [pv; VFloat 1 6] [], inr lvl);
        (mkCall "getattr" [potemp vars; VStr "values"] [], inr th);
        (isosurface_at_2 lvl th, inr (DT_potemp vars));
        (mkCall "getattr" [pvor vars; VStr "values"] [], inr pv');
        (mkCall "*" [pv'; VFloat 1 6] [], inr lvl');
        (mkCall "getattr" [uwind vars; VStr "values"] [], inr uv);
        (isosurface_at_2 lvl' uv, inr iso_u);
        (mkCall "__call__" [units; VStr "m/s"] [], inr mps);
        (mkCall "*" [iso_u; mps] [], inr q_u);
        (mkCall "getattr" [units; VStr "knots"] [], inr kn);
        (mkCall ".to" [q_u; kn] [], inr (DT_uwnd vars));
        (mkCall "getattr" [pvor vars; VStr "values"] [], inr pv'');
        (mkCall "*" [pv''; VFloat 1 6] [], inr lvl'');
        (mkCall "getattr" [vwind vars; VStr "values"] [], inr vv);
        (isosurface_at_2 lvl'' vv, inr iso_v);
        (mkCall "__call__" [units; VStr "m/s"] [], inr mps');
        (mkCall "*" [iso_v; mps'] [], inr q_v);
        (mkCall "getattr" [units; VStr "knots"] [], inr kn');
        (mkCall ".to" [q_v; kn'] [], inr (DT_vwnd vars)) ] ∧
    count_calls "interpolate_to_isosurface" pre = 0 ∧
    (mkCall "mpcalc.potential_vorticity_baroclinic"
       [potemp vars; pressure vars; uwind vars; vwind vars] [], inr (pvor vars)) ∈ pre.
Proof.
  intros Hrun.
  cbv beta iota delta [tropopause_compute_cell mbind Prog_bind mret Prog_ret
                         getattr getitem call call_kw] in Hrun.
  repeat (apply run_call_inr in Hrun as [? Hrun]; cbv beta in Hrun).
  simpl in Hrun. injection Hrun as Hvars Htr.
  exists (take 26 tr).
  eexists _, _, _, _, _, _, _, _, _, _, _, _, _, _, _, _, _.
  rewrite <- Hvars, <- Htr.
  split_and!.
  - reflexivity.
  - reflexivity.
  - apply list_elem_of_lookup. exists 25. reflexivity.
Qed.

(** *** The GLM notebook on empty answers *)

Lemma run_call oracle {A} c (q : Value Obj → Prog Obj A) tr v :
  oracle tr c = inr v →
  run oracle (pbind (Do c Ret) q) tr = run oracle (q v) (tr ++ [(c, inr v)]).
Proof. intros Hc. simpl. by rewrite Hc. Qed.

(** [l[-1]] on a Python list is its last element. *)
Lemma getitem_last (l : list (Value Obj)) t :
  last l = Some t → getitem (VList l) (VInt (-1)) = Ret t.
Proof.
  intros Hlast. unfold getitem.
  assert (length l ≠ 0) by (by destruct l).
  rewrite last_lookup, <- Nat.sub_1_r in Hlast.
  rewrite (decide_True (P := (-1 < 0)%Z)) by lia.
  rewrite decide_True by lia.
  replace (Z.to_nat (-1 + Z.of_nat (length l))) with (length l - 1) by lia.
  by rewrite Hlast.
Qed.

Lemma run_getitem_last oracle {A} l t (q : Value Obj → Prog Obj A) tr :
  last l = Some t →
  run oracle (pbind (getitem (VList l) (VInt (-1))) q) tr = run oracle (q t) tr.
Proof. intros Hlast. by rewrite (getitem_last _ _ Hlast). Qed.

(** One statement of a cell whose call is answered: by the answer the
    hypothesis [Hfix] fixes for it, or else by whatever [Hok] provides. *)
Ltac answer_call Hok Hfix :=
  match goal with
  | |- context [run ?o (pbind (Do ?c Ret) ?q) ?t] =>
      first
        [ rewrite (run_call o c q t _ (Hfix t c eq_refl))
        | let v := fresh "v" in
          let Hv := fresh "Hv" in
          destruct (Hok t c) as [v Hv];
          rewrite (run_call o c q t v Hv); clear Hv ];
      cbv beta
  end.

(** X7: if the server reports no available times, the GLM cell raises
    [IndexError] at [times[-1]], even though every call is answered, and
    it never asks for the geometry data. *)
Theorem glm_no_times oracle :
  (∀ tr c, ∃ v, oracle tr c = inr v) →
  (∀ tr c, fn c = "DataAccessLayer.getAvailableTimes" → oracle tr c = inr (VList [])) →
  (run oracle glm_cells []).1 = inl (IndexError "list index out of range") ∧
  count_calls "DataAccessLayer.getGeometryData" (run oracle glm_cells []).2 = 0.
Proof.
  intros Hok Htimes.
  cbv beta delta [glm_cells mbind Prog_bind mret Prog_ret call].
  do 15 answer_call Hok Htimes.
  cbn. split; reflexivity.
Qed.

(** X8: if the server answers the request with an empty collection, the
    GLM cell has fetched once, walks no point, and raises [IndexError] at
    [ob = response[0]]. *)
Theorem glm_empty_response oracle ts t :
  last ts = Some t →
  (∀ tr c, ∃ v, oracle tr c = inr v) →
  (∀ tr c, fn c = "DataAccessLayer.getAvailableTimes" ∨
           fn c = "DataAccessLayer.getGeometryData" →
           oracle tr c = inr (VList (if decide (fn c = "DataAccessLayer.getAvailableTimes")
                                     then ts else []))) →
  (run oracle glm_cells []).1 = inl (IndexError "list index out of range") ∧
  count_calls "DataAccessLayer.getGeometryData" (run oracle glm_cells []).2 = 1 ∧
  count_calls ".getGeometry" (run oracle glm_cells []).2 = 0.
Proof.
  intros Hlast Hok Hfix.
  assert (∀ tr c, fn c = "DataAccessLayer.getAvailableTimes" →
                  oracle tr c = inr (VList ts)) as Htimes.
  { intros tr c Hc. rewrite Hfix by auto. by rewrite decide_True. }
  assert (∀ tr c, fn c = "DataAccessLayer.getGeometryData" →
                  oracle tr c = inr (VList [])) as Hdata.
  { intros tr c Hc. rewrite Hfix by auto. rewrite decide_False; [done|].
    rewrite Hc. discriminate. }
  cbv beta delta [glm_cells mbind Prog_bind mret Prog_ret call].
  do 15 answer_call Hok Htimes.
  rewrite (run_getitem_last _ _ _ _ _ Hlast). cbv beta.
  answer_call Hok Hdata.
  cbn. split_and!; reflexivity.
Qed.

(** *** The GLM notebook when it runs through *)

(** Indexing a Python list calls nothing, and answers only in range. *)
Lemma getitem_list_inr oracle (l : list (Value Obj)) z tr v tr' :
  run oracle (getitem (VList l) (VInt z)) tr = (inr v, tr') →
  tr' = tr ∧
  l !! Z.to_nat (if decide (z < 0)%Z then (z + Z.of_nat (length l))%Z else z) = Some v.
Proof.
  unfold getitem. cbv zeta.
  destruct (decide (0 ≤ _ < _)%Z); [|done].
  destruct (l !! _) eqn:Hv; [|done].
  simpl. by intros [= -> ->].
Qed.

(** A loop whose body is one call [f(x)]: its transcript is one answered
    call per item, in order, and it collects the answers. *)
Lemma for_each_call_inr oracle f (l : list (Value Obj)) tr gs tr' :
  run oracle (for_each l (λ x, call f [x])) tr = (inr gs, tr') →
  length gs = length l ∧
  tr' = tr ++ zip_with (λ x y, (mkCall f [x] [], inr y)) l gs.
Proof.
  revert tr gs. induction l as [|x l IH]; intros tr gs; simpl.
  - intros [= <- <-]. by rewrite app_nil_r.
  - destruct (oracle tr _) as [e|y]; [done|].
    rewrite run_bind.
    destruct (run oracle (for_each l _) _) as [[e|r] tr1] eqn:Hloop; [done|].
    simpl. intros [= <- <-].
    apply IH in Hloop as [Hlen ->]. simpl.
    split; [by rewrite Hlen | by rewrite <- (assoc_L (++))].
Qed.

(** X9: when the GLM cell runs through with lists for [times] and
    [response], [times] was not empty, the one fetch asked for the
    latest time alone, the loop asked each record of the response for its
    geometry, in order and once, nothing was called after the loop, and
    [ob] is the first record. *)
Theorem glm_cells_completed oracle vars tr ts l :
  run oracle glm_cells [] = (inr vars, tr) →
  glm_times vars = VList ts →
  glm_response vars = VList l →
  ∃ t pre,
    last ts = Some t ∧
    l !! 0 = Some (glm_ob vars) ∧
    length (glm_points vars) = length l ∧
    length pre = 15 ∧
    count_calls "DataAccessLayer.getGeometryData" pre = 0 ∧
    tr = pre
         ++ (mkCall "DataAccessLayer.getGeometryData"
               [glm_request vars; VList [t]] [], inr (VList l))
         :: zip_with (λ x y, (mkCall ".getGeometry" [x] [], inr y))
                     l (glm_points vars).
Proof.
  intros Hrun Hts Hl.
  cbv beta delta [glm_cells mbind Prog_bind mret Prog_ret call] in Hrun.
  do 15 (apply run_call_inr in Hrun as [? Hrun]; cbv beta in Hrun).
  rewrite run_bind in Hrun.
  destruct (run oracle (getitem _ _) _) as [[e|t] tr1] eqn:Hlatest; [done|].
  apply run_call_inr in Hrun as [response Hrun]. cbv beta in Hrun.
  rewrite run_bind in Hrun.
  destruct (run oracle (for_in _ _) _) as [[e|points] tr2] eqn:Hloop; [done|].
  rewrite run_bind in Hrun.
  destruct (run oracle (getitem _ (VInt 0)) _) as [[e|ob] tr3] eqn:Hob; [done|].
  simpl in Hrun. injection Hrun as <- <-.
  cbn [glm_times glm_response glm_ob glm_points glm_request] in *. subst.
  apply getitem_list_inr in Hlatest as [-> Ht].
  apply getitem_list_inr in Hob as [-> Hob].
  apply for_each_call_inr in Hloop as [Hlen ->].
  rewrite decide_True in Ht by lia. rewrite decide_False in Hob by lia.
  assert (last ts = Some t) as Hlast.
  { rewrite last_lookup. rewrite <- Ht. f_equal. lia. }
  eexists t, _. split_and!; [done | done | done | | | ].
  3: { rewrite <- (assoc_L (++)). reflexivity. }
  - reflexivity.
  - reflexivity.
Qed.

End ScriptTheory.

(** *** The notebooks against the example servers *)

Lemma glm_no_times_witness :
  (run (glm_oracle [] [VObj 1]) glm_cells []).1
  = inl (IndexError "list index out of range") ∧
  count_calls "DataAccessLayer.getGeometryData"
    (run (glm_oracle [] [VObj 1]) glm_cells []).2 = 0.
Proof.
  apply glm_no_times.
  - intros tr c. unfold glm_oracle. repeat case_decide; eauto.
  - intros tr c Hc. unfold glm_oracle. by rewrite decide_True.
Defined.

Lemma glm_empty_response_witness :
  (run (glm_oracle [VObj 7; VObj 8] []) glm_cells []).1
  = inl (IndexError "list index out of range") ∧
  count_calls "DataAccessLayer.getGeometryData"
    (run (glm_oracle [VObj 7; VObj 8] []) glm_cells []).2 = 1 ∧
  count_calls ".getGeometry" (run (glm_oracle [VObj 7; VObj 8] []) glm_cells []).2 = 0.
Proof.
  apply (glm_empty_response _ [VObj 7; VObj 8] (VObj 8)).
  - reflexivity.
  - intros tr c. unfold glm_oracle. repeat case_decide; eauto.
  - intros tr c [Hc|Hc]; unfold glm_oracle; rewrite Hc; reflexivity.
Defined.

Lemma glm_cells_completed_witness :
  ∃ t pre,
    last [VObj 7; VObj 8] = Some t ∧
    [VObj 1; VObj 2; VObj 3] !! 0 = Some (glm_ob example_glm_vars) ∧
    length (glm_points example_glm_vars) = length [VObj 1; VObj 2; VObj 3 : Value nat] ∧
    length pre = 15 ∧
    count_calls "DataAccessLayer.getGeometryData" pre = 0 ∧
    (run (glm_oracle [VObj 7; VObj 8] [VObj 1; VObj 2; VObj 3]) glm_cells []).2
    = pre
      ++ (mkCall "DataAccessLayer.getGeometryData"
            [glm_request example_glm_vars; VList [t]] [],
          inr (VList [VObj 1; VObj 2; VObj 3]))
      :: zip_with (λ x y, (mkCall ".getGeometry" [x] [], inr y))
                  [VObj 1; VObj 2; VObj 3] (glm_points example_glm_vars).
Proof.
  apply (glm_cells_completed
           (glm_oracle [VObj 7; VObj 8] [VObj 1; VObj 2; VObj 3])
           example_glm_vars _ [VObj 7; VObj 8] [VObj 1; VObj 2; VObj 3]);
    [vm_compute; reflexivity | reflexivity | reflexivity].
Defined.

Lemma tropopause_isosurface_calls_witness :
  ∃ pre pv lvl th pv' lvl' uv iso_u mps q_u kn pv'' lvl'' vv iso_v mps' q_v kn',
    (run fresh_oracle (tropopause_compute_cell (VObj 100) (VObj 200)) []).2
    = pre ++
      [ (mkCall "getattr" [pvor example_tropopause_vars; VStr "values"] [], inr pv);
        (mkCall "*" [pv; VFloat 1 6] [], inr lvl);
        (mkCall "getattr" [potemp example_tropopause_vars; VStr "values"] [], inr th);
        (isosurface_at_2 lvl th, inr (DT_potemp example_tropopause_vars));
        (mkCall "getattr" [pvor example_tropopause_vars; VStr "values"] [], inr pv');
        (mkCall "*" [pv'; VFloat 1 6] [], inr lvl');
        (mkCall "getattr" [uwind example_tropopause_vars; VStr "values"] [], inr uv);
        (isosurface_at_2 lvl' uv, inr iso_u);
        (mkCall "__call__" [VObj 100; VStr "m/s"] [], inr mps);
        (mkCall "*" [iso_u; mps] [], inr q_u);
        (mkCall "getattr" [VObj 100; VStr "knots"] [], inr kn);
        (mkCall ".to" [q_u; kn] [], inr (DT_uwnd example_tropopause_vars));
        (mkCall "getattr" [pvor example_tropopause_vars; VStr "values"] [], inr pv'');
        (mkCall "*" [pv''; VFloat 1 6] [], inr lvl'');
        (mkCall "getattr" [vwind example_tropopause_vars; VStr "values"] [], inr vv);
        (isosurface_at_2 lvl'' vv, inr iso_v);
        (mkCall "__call__" [VObj 100; VStr "m/s"] [], inr mps');
        (mkCall "*" [iso_v; mps'] [], inr q_v);
        (mkCall "getattr" [VObj 100; VStr "knots"] [], inr kn');
        (mkCall ".to" [q_v; kn'] [], inr (DT_vwnd example_tropopause_vars)) ] ∧
    count_calls "interpolate_to_isosurface" pre = 0 ∧
    (mkCall "mpcalc.potential_vorticity_baroclinic"
       [potemp example_tropopause_vars; pressure example_tropopause_vars;
        uwind example_tropopause_vars; vwind example_tropopause_vars] [],
     inr (pvor example_tropopause_vars)) ∈ pre.
Proof.
  apply (tropopause_isosurface_calls fresh_oracle (VObj 100) (VObj 200)
           example_tropopause_vars).
  vm_compute. reflexivity.
Defined.

Lemma notebooks_fetch_once_witness :
  count_calls ".get_data"
    (run vorticity_oracle (vorticity_data_cell (VObj 100)) []).2 = 1.
Proof.
  destruct (@notebooks_fetch_once nat) as (_ & Hvor & _).
  specialize (Hvor (VObj 100)).
  apply Forall_cons_1 in Hvor as [_ Hvor].
  apply Forall_cons_1 in Hvor as [_ Hvor].
  apply Forall_cons_1 in Hvor as [[_ Hexact] _].
  destruct (run vorticity_oracle (vorticity_data_cell (VObj 100)) [])
    as [[e|vars] tr] eqn:Hrun.
  - vm_compute in Hrun. discriminate Hrun.
  - exact (Hexact _ _ _ Hrun).
Defined.

(** *** The wind barbs over an example grid *)

Lemma barbs_on_grid_witness :
  ∃ xx yy us vs,
    barb_grid (example_axis 41) (example_axis 21)
              (example_field 21 41) (example_field 21 41) = (xx, yy, us, vs) ∧
    shape us = ((length (example_axis 21) + 19) / 20,
                (length (example_axis 41) + 19) / 20) ∧
    shape xx = shape us ∧ shape yy = shape us ∧ shape vs = shape us ∧
    ∀ i j, i < (shape us).1 → j < (shape us).2 →
      ∃ xj yi uij vij,
        example_axis 41 !! (j * 20) = Some xj ∧
        example_axis 21 !! (i * 20) = Some yi ∧
        item (example_field 21 41) (i * 20) (j * 20) = Some uij ∧
        item (example_field 21 41) (i * 20) (j * 20) = Some vij ∧
        item xx i j = Some xj ∧ item yy i j = Some yi ∧
        item us i j = Some uij ∧ item vs i j = Some vij.
Proof.
  eexists _, _, _, _. split; [reflexivity|].
  apply (barbs_on_grid (example_axis 41) (example_axis 21)
           (example_field 21 41) (example_field 21 41)); reflexivity.
Defined.
